(** * openscreen: the zoom transform and the video exporter

    A shallow embedding of two parts of the export pipeline:

    - [ZoomTransform]: [applyZoomTransform], the per-frame virtual camera
      (scale, position, clip mask, motion blur);
    - [Exporter]: [VideoExporter] of [src/lib/exporter/videoExporter.ts],
      the frame loop with its encode-queue backpressure, the encoder
      callbacks, cancellation and finalisation.

    JavaScript numbers are modelled by exact rationals ([Q]) in the
    transform and by [Z] for the integer counters of the exporter; NaN,
    infinities and rounding are outside the model. *)

From Stdlib Require Import QArith Qminmax ZArith List String Bool Lia Lqa.
From Stdlib Require Import Sorted.
Import ListNotations.

(* ================================================================== *)
(** * The zoom transform *)
(* ================================================================== *)

Module ZoomTransform.

Local Open Scope Q_scope.

(** ** Data *)

Record Size := { width : Q; height : Q }.
Record Point := { x : Q; y : Q }.
Record Rect := { rx : Q; ry : Q; rwidth : Q; rheight : Q }.

(** The two properties of the PIXI sprite the function writes.
    [scale.set(s)] sets both components to [s]. *)
Record Sprite := { scale : Point; position : Point }.

(** Drawing instructions held by a PIXI [Graphics]; [clear()] empties
    the list. *)
Inductive GraphicsOp :=
| RoundRect (gx gy gw gh radius : Q)
| Fill (color : Z).

(** The objects [applyZoomTransform] mutates.  [blurFilter] is [None]
    when the caller passes [null], otherwise it holds the filter's
    current [blur]. *)
Record Scene := {
  videoSprite : Sprite;
  maskGraphics : list GraphicsOp;
  blurFilter : option Q
}.

(** The value fields of [TransformParams]. *)
Record TransformParams := {
  stageSize : Size;
  videoSize : Size;
  baseScale : Q;
  baseOffset : Point;
  baseMask : Rect;
  cropOffset : Point;
  zoomScale : Q;
  focusX : Q;
  focusY : Q;
  motionIntensity : Q;
  isPlaying : bool
}.

(** ** The function, binding by binding *)

(** [!n] on a number: true exactly for zero. *)
Definition falsy (n : Q) : bool := Qeq_bool n 0.

(** [a > b] *)
Definition Qgtb (a b : Q) : bool := negb (Qle_bool a b).

(** The guard of lines 38-48. *)
Definition degenerate (p : TransformParams) : bool :=
  falsy (width (stageSize p)) ||
  falsy (height (stageSize p)) ||
  falsy (width (videoSize p)) ||
  falsy (height (videoSize p)) ||
  Qle_bool (baseScale p) 0 ||
  Qle_bool (rwidth (baseMask p)) 0 ||
  Qle_bool (rheight (baseMask p)) 0.

Definition focusStagePxX p := rx (baseMask p) + focusX p * width (stageSize p).
Definition focusStagePxY p := ry (baseMask p) + focusY p * height (stageSize p).
Definition stageCenterX p := rx (baseMask p) + width (stageSize p) / 2.
Definition stageCenterY p := ry (baseMask p) + height (stageSize p) / 2.

Definition actualScale p := baseScale p * zoomScale p.

Definition focusInVideoSpaceX p := focusStagePxX p - x (baseOffset p).
Definition focusInVideoSpaceY p := focusStagePxY p - y (baseOffset p).

(** [newVideoX], [newVideoY] as first assigned (lines 67-68), before
    clamping. *)
Definition newVideoX0 p := stageCenterX p - focusInVideoSpaceX p * zoomScale p.
Definition newVideoY0 p := stageCenterY p - focusInVideoSpaceY p * zoomScale p.

Definition cropStartX p := x (cropOffset p).
Definition cropStartY p := y (cropOffset p).
Definition cropEndX p := x (cropOffset p) + width (videoSize p).
Definition cropEndY p := y (cropOffset p) + height (videoSize p).

Definition minVideoX p := rx (baseMask p) + rwidth (baseMask p) - cropEndX p * actualScale p.
Definition maxVideoX p := rx (baseMask p) - cropStartX p * actualScale p.
Definition minVideoY p := ry (baseMask p) + rheight (baseMask p) - cropEndY p * actualScale p.
Definition maxVideoY p := ry (baseMask p) - cropStartY p * actualScale p.

(** [if (lo <= hi) v = Math.max(lo, Math.min(hi, v))] *)
Definition clampAxis (lo hi v : Q) : Q :=
  if Qle_bool lo hi then Qmax lo (Qmin hi v) else v.

Definition newVideoX p := clampAxis (minVideoX p) (maxVideoX p) (newVideoX0 p).
Definition newVideoY p := clampAxis (minVideoY p) (maxVideoY p) (newVideoY0 p).

(** Lines 93-94. *)
Definition motionBlur p : Q :=
  if isPlaying p && Qgtb (motionIntensity p) (5 # 10000)
  then Qmin 6 (motionIntensity p * 120)
  else 0.

Definition maskRadius p : Q :=
  Qmin (rwidth (baseMask p)) (rheight (baseMask p)) * (2 # 100).

Definition applyZoomTransform (p : TransformParams) (s : Scene) : Scene :=
  if degenerate p then s
  else
    {| videoSprite :=
         {| scale := {| x := actualScale p; y := actualScale p |};
            position := {| x := newVideoX p; y := newVideoY p |} |};
       blurFilter :=
         match blurFilter s with
         | Some _ => Some (motionBlur p)
         | None => None
         end;
       maskGraphics :=
         [ RoundRect (rx (baseMask p)) (ry (baseMask p))
                     (rwidth (baseMask p)) (rheight (baseMask p))
                     (maskRadius p);
           Fill 16777215%Z ] |}.

(** ** The statements of the specification, in its own words *)

(** "if [stageSize], [videoSize], [baseScale], or [baseMask] dimensions
    are non-positive". *)
Definition nonPositiveDimension (p : TransformParams) : Prop :=
  width (stageSize p) <= 0 \/ height (stageSize p) <= 0 \/
  width (videoSize p) <= 0 \/ height (videoSize p) <= 0 \/
  baseScale p <= 0 \/
  rwidth (baseMask p) <= 0 \/ rheight (baseMask p) <= 0.

(** What the guard of the code tests. *)
Definition guardFires (p : TransformParams) : Prop :=
  width (stageSize p) == 0 \/ height (stageSize p) == 0 \/
  width (videoSize p) == 0 \/ height (videoSize p) == 0 \/
  baseScale p <= 0 \/
  rwidth (baseMask p) <= 0 \/ rheight (baseMask p) <= 0.

(** "focusPx = baseMask.origin + focus * stageSize",
    "center = baseMask.origin + stageSize / 2",
    "newOrigin = center - offset * zoomScale" with the offset taken from
    the unscaled video origin [baseOffset]. *)
Definition spec_focusPx (origin focus size : Q) : Q := origin + focus * size.
Definition spec_center (origin size : Q) : Q := origin + size / 2.
Definition spec_newOrigin (origin focus size base zoom : Q) : Q :=
  spec_center origin size - (spec_focusPx origin focus size - base) * zoom.

(** "min = maskOrigin + maskSize - cropEnd * actualScale",
    "max = maskOrigin - cropStart * actualScale". *)
Definition spec_min (maskOrigin maskSize cropEnd scale : Q) : Q :=
  maskOrigin + maskSize - cropEnd * scale.
Definition spec_max (maskOrigin cropStart scale : Q) : Q :=
  maskOrigin - cropStart * scale.

(** The centre of the visible (cropped) video on one axis, for a sprite
    at [pos] drawn at scale [sc]: the crop spans [cropStart, cropStart +
    size] in the sprite's own coordinates. *)
Definition videoCenter (pos cropStart size sc : Q) : Q :=
  pos + (cropStart + size / 2) * sc.
Definition maskCenter (origin size : Q) : Q := origin + size / 2.

(** ** Concrete inputs used below *)

Definition unitScene : Scene :=
  {| videoSprite := {| scale := {| x := 1; y := 1 |};
                       position := {| x := 0; y := 0 |} |};
     maskGraphics := [];
     blurFilter := Some 0 |}.

Definition mkParams (stageW videoW maskW zoom fx bx : Q) : TransformParams :=
  {| stageSize := {| width := stageW; height := 100 |};
     videoSize := {| width := videoW; height := 100 |};
     baseScale := 1;
     baseOffset := {| x := bx; y := 0 |};
     baseMask := {| rx := 0; ry := 0; rwidth := maskW; rheight := 100 |};
     cropOffset := {| x := 0; y := 0 |};
     zoomScale := zoom;
     focusX := fx;
     focusY := 1 # 2;
     motionIntensity := 0;
     isPlaying := false |}.

(** ** The same parameters with another focus *)

Definition withFocus (fx fy : Q) (p : TransformParams) : TransformParams :=
  {| stageSize := stageSize p;
     videoSize := videoSize p;
     baseScale := baseScale p;
     baseOffset := baseOffset p;
     baseMask := baseMask p;
     cropOffset := cropOffset p;
     zoomScale := zoomScale p;
     focusX := fx;
     focusY := fy;
     motionIntensity := motionIntensity p;
     isPlaying := isPlaying p |}.

(** A scene whose objects hold leftovers of an earlier frame. *)
Definition usedScene : Scene :=
  {| videoSprite := {| scale := {| x := 3; y := 3 |};
                       position := {| x := -40; y := 7 |} |};
     maskGraphics := [RoundRect 1 2 3 4 5; Fill 0%Z];
     blurFilter := Some 4 |}.

(** Playing, with motion. *)
Definition playing (mi : Q) (p : TransformParams) : TransformParams :=
  {| stageSize := stageSize p;
     videoSize := videoSize p;
     baseScale := baseScale p;
     baseOffset := baseOffset p;
     baseMask := baseMask p;
     cropOffset := cropOffset p;
     zoomScale := zoomScale p;
     focusX := focusX p;
     focusY := focusY p;
     motionIntensity := mi;
     isPlaying := true |}.

End ZoomTransform.

(* ================================================================== *)
(** * The video exporter *)
(* ================================================================== *)

(** [export()] is an async function: it runs until an [await], is
    suspended, and is resumed when the awaited promise settles.  Between
    two resumptions the event loop may run the encoder's callbacks, let
    an [addVideoChunk] promise settle, or let the caller invoke
    [cancel()].  A run is therefore a sequence of events, each handled
    atomically ([step]); the code between two [await]s is one function
    of the state.

    The decoder, the renderer and the muxer are classes of their own and
    the encoder is the platform's [VideoEncoder]: the exporter's fields
    record whether it holds them (non-null), their calls are recorded in
    a trace, and whether a call or a promise succeeds is chosen by the
    event ([Resume Ok] or [Resume (Throw m)]).  Constructors and the
    synchronous platform calls other than [configure] are taken not to
    throw.  The model covers one call of [export()] on a new exporter. *)

Module Exporter.

Local Open Scope string_scope.
Local Open Scope Z_scope.

(** ** Data *)

Definition MAX_ENCODE_QUEUE : Z := 120.

(** How a call into the platform, or a promise, ends. *)
Inductive Outcome :=
| Ok
| Throw (message : string).

(** [VideoEncoder.state]. *)
Inductive CodecState := Unconfigured | Configured | Closed.

Record ColorSpace := {
  primaries : string;
  transfer : string;
  matrix : string;
  fullRange : bool
}.

Record DecoderConfig := {
  dcCodec : string;
  codedWidth : option Z;
  codedHeight : option Z;
  description : option (list Byte.byte);
  colorSpace : option ColorSpace
}.

(** [EncodedVideoChunkMetadata]; the callback's [meta] argument is an
    [option Metadata] since the code reads it with [meta?.]. *)
Record Metadata := { decoderConfig : option DecoderConfig }.

Definition Chunk := nat.

Inductive ExportResult :=
| Success
| Failure (error : string).

(** The part of [VideoExporterConfig] the exporter itself reads. *)
Record Config := {
  codec : option string;
  cfgWidth : Z;
  cfgHeight : Z;
  onProgress : bool
}.

(** What the platform decides during the synchronous parts of a run:
    the frame count obtained from the loaded video, whether the video
    element is off its target time at frame [i], whether each
    [configure] call throws, whether the decoder has a video element. *)
Record Platform := {
  totalFrames : nat;
  needsSeek : nat -> bool;
  configureHardware : Outcome;
  configureSoftware : Outcome;
  videoElement : bool
}.

(** Calls that leave the exporter, in the order they are made (newest
    first in [trace]); [Flushed] marks the moment the promise of
    [flush()] resolves. *)
Inductive Call :=
| Encode (frame : nat) (keyFrame : bool)
| Flush
| Flushed
| AddVideoChunk (promise : nat) (chunk : Chunk) (meta : option Metadata)
| Finalize
| Progress (currentFrame total : nat)
| ConsoleError (tag message : string)
| ConsoleWarn (tag message : string).

(** Where [export()] is suspended. *)
Inductive PC :=
| Idle
| AwaitLoadVideo
| AwaitRendererInit
| AwaitEncoderInit (r : Outcome)
| AwaitMuxerInit
| AwaitFrameReady (i : nat)
| AwaitRender (i : nat)
| AwaitQueue (i : nat)
| AwaitFlush
| AwaitMuxing (snapshot : list nat)
| AwaitFinalize
| Returned (r : ExportResult).

(** The fields of [VideoExporter] (objects as "non-null" flags), the
    [videoDescription] variable closed over by the output callback, the
    state of the platform objects the exporter talks to, and the control
    point of [export()]. *)
Record State := {
  decoder : bool;
  renderer : bool;
  encoder : bool;
  muxer : bool;
  cancelled : bool;
  encodeQueue : Z;
  muxingPromises : list nat;
  chunkCount : nat;
  videoDescription : option (list Byte.byte);
  videoColorSpace : option ColorSpace;
  closureDescription : option (list Byte.byte);
  (* the VideoEncoder object *)
  encoderState : CodecState;
  encoderPending : nat;
  (* addVideoChunk promises that have not settled *)
  unsettled : list nat;
  nextPromise : nat;
  pc : PC;
  trace : list Call
}.

(** What happens around a suspended [export()]. *)
Inductive Event :=
| Resume (o : Outcome)
| Output (chunk : Chunk) (meta : option Metadata)
| EncoderError (message : string)
| Cancel
| MuxSettled (promise : nat) (o : Outcome).

(** ** Field updates *)

Definition setPc (v : PC) (s : State) : State :=
  {| decoder := decoder s; renderer := renderer s; encoder := encoder s;
     muxer := muxer s; cancelled := cancelled s; encodeQueue := encodeQueue s;
     muxingPromises := muxingPromises s; chunkCount := chunkCount s;
     videoDescription := videoDescription s;
     videoColorSpace := videoColorSpace s;
     closureDescription := closureDescription s;
     encoderState := encoderState s; encoderPending := encoderPending s;
     unsettled := unsettled s; nextPromise := nextPromise s;
     pc := v; trace := trace s |}.

Definition call (c : Call) (s : State) : State :=
  {| decoder := decoder s; renderer := renderer s; encoder := encoder s;
     muxer := muxer s; cancelled := cancelled s; encodeQueue := encodeQueue s;
     muxingPromises := muxingPromises s; chunkCount := chunkCount s;
     videoDescription := videoDescription s;
     videoColorSpace := videoColorSpace s;
     closureDescription := closureDescription s;
     encoderState := encoderState s; encoderPending := encoderPending s;
     unsettled := unsettled s; nextPromise := nextPromise s;
     pc := pc s; trace := c :: trace s |}.

Definition setCancelled (v : bool) (s : State) : State :=
  {| decoder := decoder s; renderer := renderer s; encoder := encoder s;
     muxer := muxer s; cancelled := v; encodeQueue := encodeQueue s;
     muxingPromises := muxingPromises s; chunkCount := chunkCount s;
     videoDescription := videoDescription s;
     videoColorSpace := videoColorSpace s;
     closureDescription := closureDescription s;
     encoderState := encoderState s; encoderPending := encoderPending s;
     unsettled := unsettled s; nextPromise := nextPromise s;
     pc := pc s; trace := trace s |}.

Definition setDecoder (v : bool) (s : State) : State :=
  {| decoder := v; renderer := renderer s; encoder := encoder s;
     muxer := muxer s; cancelled := cancelled s; encodeQueue := encodeQueue s;
     muxingPromises := muxingPromises s; chunkCount := chunkCount s;
     videoDescription := videoDescription s;
     videoColorSpace := videoColorSpace s;
     closureDescription := closureDescription s;
     encoderState := encoderState s; encoderPending := encoderPending s;
     unsettled := unsettled s; nextPromise := nextPromise s;
     pc := pc s; trace := trace s |}.

Definition setRenderer (v : bool) (s : State) : State :=
  {| decoder := decoder s; renderer := v; encoder := encoder s;
     muxer := muxer s; cancelled := cancelled s; encodeQueue := encodeQueue s;
     muxingPromises := muxingPromises s; chunkCount := chunkCount s;
     videoDescription := videoDescription s;
     videoColorSpace := videoColorSpace s;
     closureDescription := closureDescription s;
     encoderState := encoderState s; encoderPending := encoderPending s;
     unsettled := unsettled s; nextPromise := nextPromise s;
     pc := pc s; trace := trace s |}.

Definition setMuxer (v : bool) (s : State) : State :=
  {| decoder := decoder s; renderer := renderer s; encoder := encoder s;
     muxer := v; cancelled := cancelled s; encodeQueue := encodeQueue s;
     muxingPromises := muxingPromises s; chunkCount := chunkCount s;
     videoDescription := videoDescription s;
     videoColorSpace := videoColorSpace s;
     closureDescription := closureDescription s;
     encoderState := encoderState s; encoderPending := encoderPending s;
     unsettled := unsettled s; nextPromise := nextPromise s;
     pc := pc s; trace := trace s |}.

(** ** Constants of the source *)

Definition defaultCodec : string := "avc1.64001f".

Definition defaultColorSpace : ColorSpace :=
  {| primaries := "bt709"; transfer := "iec61966-2-1"; matrix := "rgb";
     fullRange := true |}.

Definition cancelMessage : string := "Export cancelled".

(** [this.config.codec || 'avc1.64001f']: an absent or empty codec
    string falls back to the default. *)
Definition codecOrDefault (c : option string) : string :=
  match c with
  | Some EmptyString => defaultCodec
  | Some s => s
  | None => defaultCodec
  end.

(** The message of the TypeError V8 raises for [null.prop]. *)
Definition nullDeref (prop : string) : string :=
  "Cannot read properties of null (reading '" ++ prop ++ "')".

Definition isConfigured (st : CodecState) : bool :=
  match st with Configured => true | _ => false end.

Definition isClosed (st : CodecState) : bool :=
  match st with Closed => true | _ => false end.

(** ** [cleanup()] (lines 278-314) *)

Definition cleanup (s : State) : State :=
  {| decoder := false; renderer := false; encoder := false; muxer := false;
     cancelled := cancelled s;
     encodeQueue := 0;
     muxingPromises := [];
     chunkCount := 0%nat;
     videoDescription := None;
     videoColorSpace := None;
     closureDescription := closureDescription s;
     encoderState :=
       if encoder s && isConfigured (encoderState s) then Closed
       else encoderState s;
     encoderPending :=
       if encoder s && isConfigured (encoderState s) then 0%nat
       else encoderPending s;
     unsettled := unsettled s; nextPromise := nextPromise s;
     pc := pc s; trace := trace s |}.

(** [cancel()] (lines 273-276). *)
Definition cancel (s : State) : State := cleanup (setCancelled true s).

(** [return r] from inside the [try]: the [finally] block runs
    [cleanup()]. *)
Definition returnWith (r : ExportResult) (s : State) : State :=
  setPc (Returned r) (cleanup s).

(** An exception reaching the [catch] of [export()] (lines 161-166). *)
Definition throwError (message : string) (s : State) : State :=
  returnWith (Failure message) (call (ConsoleError "Export error:" message) s).

(** ** The encoder callbacks (lines 179-231) *)

Definition metaDescription (meta : option Metadata) : option (list Byte.byte) :=
  match meta with
  | Some m => match decoderConfig m with
              | Some d => description d
              | None => None
              end
  | None => None
  end.

Definition metaColorSpace (meta : option Metadata) : option ColorSpace :=
  match meta with
  | Some m => match decoderConfig m with
              | Some d => colorSpace d
              | None => None
              end
  | None => None
  end.

Section WithConfig.

Variable cfg : Config.

(** The metadata built for the first chunk (lines 199-214). *)
Definition firstChunkMetadata (desc : list Byte.byte)
    (captured : option ColorSpace) : Metadata :=
  {| decoderConfig := Some
       {| dcCodec := codecOrDefault (codec cfg);
          codedWidth := Some (cfgWidth cfg);
          codedHeight := Some (cfgHeight cfg);
          description := Some desc;
          colorSpace := Some (match captured with
                              | Some cs => cs
                              | None => defaultColorSpace
                              end) |} |}.

(** The [output] callback.  The body of the async arrow function runs
    synchronously up to its [await]: [addVideoChunk] is called at once, on
    a null muxer the TypeError is caught and logged and the promise is
    already settled. *)
Definition outputCallback (chunk : Chunk) (meta : option Metadata)
    (s : State) : State :=
  let captureDesc :=
    match metaDescription meta, closureDescription s with
    | Some d, None => true
    | _, _ => false
    end in
  let closureDescription' :=
    if captureDesc then metaDescription meta else closureDescription s in
  let videoDescription' :=
    if captureDesc then metaDescription meta else videoDescription s in
  let videoColorSpace' :=
    match metaColorSpace meta, videoColorSpace s with
    | Some cs, None => Some cs
    | _, _ => videoColorSpace s
    end in
  let isFirstChunk := (chunkCount s =? 0)%nat in
  let forwarded :=
    match isFirstChunk, videoDescription' with
    | true, Some d => Some (firstChunkMetadata d videoColorSpace')
    | _, _ => meta
    end in
  let p := nextPromise s in
  {| decoder := decoder s; renderer := renderer s; encoder := encoder s;
     muxer := muxer s; cancelled := cancelled s;
     encodeQueue := encodeQueue s - 1;
     muxingPromises := muxingPromises s ++ [p];
     chunkCount := S (chunkCount s);
     videoDescription := videoDescription';
     videoColorSpace := videoColorSpace';
     closureDescription := closureDescription';
     encoderState := encoderState s; encoderPending := encoderPending s;
     unsettled := if muxer s then p :: unsettled s else unsettled s;
     nextPromise := S p;
     pc := pc s;
     trace :=
       (if muxer s then AddVideoChunk p chunk forwarded
        else ConsoleError "Muxing error:" (nullDeref "addVideoChunk"))
       :: trace s |}.

(** The [error] callback (lines 228-230). *)
Definition errorCallback (message : string) (s : State) : State :=
  call (ConsoleError "VideoEncoder error:" message) s.

Variable env : Platform.

(** ** [initializeEncoder()] (lines 172-271) *)

(** Lines 173-178: the counters are reset and a new encoder is made. *)
Definition newEncoder (s : State) : State :=
  {| decoder := decoder s; renderer := renderer s; encoder := true;
     muxer := muxer s; cancelled := cancelled s;
     encodeQueue := 0;
     muxingPromises := [];
     chunkCount := 0%nat;
     videoDescription := videoDescription s;
     videoColorSpace := videoColorSpace s;
     closureDescription := None;
     encoderState := Unconfigured; encoderPending := 0%nat;
     unsettled := unsettled s; nextPromise := nextPromise s;
     pc := pc s; trace := trace s |}.

(** A [configure] call that does not throw. *)
Definition configured (s : State) : State :=
  {| decoder := decoder s; renderer := renderer s; encoder := encoder s;
     muxer := muxer s; cancelled := cancelled s;
     encodeQueue := encodeQueue s;
     muxingPromises := muxingPromises s; chunkCount := chunkCount s;
     videoDescription := videoDescription s;
     videoColorSpace := videoColorSpace s;
     closureDescription := closureDescription s;
     encoderState := Configured; encoderPending := encoderPending s;
     unsettled := unsettled s; nextPromise := nextPromise s;
     pc := pc s; trace := trace s |}.

Definition hardwareWarning : string :=
  "[VideoExporter] Hardware encoding failed, falling back to software encoding...".
Definition softwareError : string :=
  "[VideoExporter] Software encoding also failed:".

Definition initializeEncoder (s : State) : State * Outcome :=
  match configureHardware env with
  | Ok => (configured (newEncoder s), Ok)
  | Throw e =>
      let s1 := call (ConsoleWarn hardwareWarning e) (newEncoder s) in
      match configureSoftware env with
      | Ok => (configured s1, Ok)
      | Throw e2 =>
          (call (ConsoleError softwareError e2) s1,
           Throw ("Failed to initialize video encoder: " ++ e2))
      end
  end.

(** ** [export()] (lines 37-170), one definition per stretch of code
    between two [await]s *)

(** Lines 145-158, up to the first [await] reached. *)
Definition awaitMuxing (s : State) : State :=
  setPc (AwaitMuxing (muxingPromises s)) s.

Definition afterLoop (s : State) : State :=
  if cancelled s then returnWith (Failure cancelMessage) s
  else if encoder s && isConfigured (encoderState s)
       then setPc AwaitFlush (call Flush s)
       else awaitMuxing s.

(** Line 158. *)
Definition callFinalize (s : State) : State :=
  if muxer s then setPc AwaitFinalize (call Finalize s)
  else throwError (nullDeref "finalize") s.

(** Lines 96-102: the frame is taken from the video element and
    [this.renderer!.renderFrame] is called. *)
Definition renderStep (i : nat) (s : State) : State :=
  if renderer s then setPc (AwaitRender i) s
  else throwError (nullDeref "renderFrame") s.

(** Lines 79-94: the loop test and the seek. *)
Definition loopTop (i : nat) (s : State) : State :=
  if (i <? totalFrames env)%nat && negb (cancelled s) then
    if needsSeek env i || (i =? 0)%nat then setPc (AwaitFrameReady i) s
    else renderStep i s
  else afterLoop s.

(** Lines 126-129: the submission. *)
Definition submit (i : nat) (s : State) : State :=
  {| decoder := decoder s; renderer := renderer s; encoder := encoder s;
     muxer := muxer s; cancelled := cancelled s;
     encodeQueue := encodeQueue s + 1;
     muxingPromises := muxingPromises s; chunkCount := chunkCount s;
     videoDescription := videoDescription s;
     videoColorSpace := videoColorSpace s;
     closureDescription := closureDescription s;
     encoderState := encoderState s;
     encoderPending := S (encoderPending s);
     unsettled := unsettled s; nextPromise := nextPromise s;
     pc := pc s;
     trace := Encode i (i mod 150 =? 0)%nat :: trace s |}.

(** Lines 126-142: submission, [frameIndex++] (the caller continues at
    [S i]) and the progress report. *)
Definition submitFrame (i : nat) (s : State) : State :=
  let s1 := if encoder s && isConfigured (encoderState s)
            then submit i s else s in
  if onProgress cfg then call (Progress (S i) (totalFrames env)) s1 else s1.

(** Lines 121-143: the backpressure wait, then the rest of the
    iteration and the next loop test. *)
Definition backpressure (i : nat) (s : State) : State :=
  if (MAX_ENCODE_QUEUE <=? encodeQueue s) && negb (cancelled s)
  then setPc (AwaitQueue i) s
  else loopTop (S i) (submitFrame i s).

(** Lines 104-119: [this.renderer!.getCanvas()] and the export frame. *)
Definition afterRender (i : nat) (s : State) : State :=
  if renderer s then backpressure i s
  else throwError (nullDeref "getCanvas") s.

(** Lines 68-77. *)
Definition enterLoop (s : State) : State :=
  if decoder s then
    if videoElement env then loopTop 0 s
    else throwError "Video element not available" s
  else throwError (nullDeref "getVideoElement") s.

(** Lines 39-44: the call of [export()] up to its first [await]. *)
Definition exportCall (s : State) : State :=
  setPc AwaitLoadVideo (setDecoder true (setCancelled false (cleanup s))).

(** [export()] continues after the promise it awaits has settled with
    [o]. *)
Definition resume (o : Outcome) (s : State) : State :=
  match pc s, o with
  | AwaitLoadVideo, Ok => setPc AwaitRendererInit (setRenderer true s)
  | AwaitRendererInit, Ok =>
      let (s1, r) := initializeEncoder s in setPc (AwaitEncoderInit r) s1
  | AwaitEncoderInit Ok, _ => setPc AwaitMuxerInit (setMuxer true s)
  | AwaitEncoderInit (Throw m), _ => throwError m s
  | AwaitMuxerInit, Ok => enterLoop s
  | AwaitFrameReady i, _ => renderStep i s
  | AwaitRender i, Ok => afterRender i s
  | AwaitQueue i, _ => backpressure i s
  | AwaitFlush, Ok => awaitMuxing (call Flushed s)
  | AwaitMuxing _, _ => callFinalize s
  | AwaitFinalize, Ok => returnWith Success s
  | Idle, _ => s
  | Returned _, _ => s
  | _, Throw m => throwError m s
  end.

(** ** The platform around the exporter *)

Definition allSettled (snapshot : list nat) (s : State) : bool :=
  forallb (fun p => negb (existsb (Nat.eqb p) (unsettled s))) snapshot.

(** When an event can happen.  An encoder emits a chunk only while it is
    configured and has work; [flush()] resolves once nothing is pending
    and rejects when the encoder was closed meanwhile; [Promise.all]
    resolves once every promise of its argument has settled (the muxing
    promises never reject); the frame callback and the timer cannot
    fail. *)
Definition enabled (e : Event) (s : State) : bool :=
  match e with
  | Resume o =>
      match pc s, o with
      | Idle, _ => false
      | Returned _, _ => false
      | AwaitEncoderInit _, Ok => true
      | AwaitEncoderInit _, Throw _ => false
      | AwaitFrameReady _, Ok => true
      | AwaitFrameReady _, Throw _ => false
      | AwaitQueue _, Ok => true
      | AwaitQueue _, Throw _ => false
      | AwaitFlush, Ok =>
          isConfigured (encoderState s) && (encoderPending s =? 0)%nat
      | AwaitFlush, Throw _ => isClosed (encoderState s)
      | AwaitMuxing snapshot, Ok => allSettled snapshot s
      | AwaitMuxing _, Throw _ => false
      | _, _ => true
      end
  | Output _ _ =>
      isConfigured (encoderState s) && negb (encoderPending s =? 0)%nat
  | EncoderError _ => isConfigured (encoderState s)
  | Cancel => true
  | MuxSettled p _ => existsb (Nat.eqb p) (unsettled s)
  end.

(** The encoder emits a chunk: one pending encode is consumed and the
    [output] callback runs. *)
Definition emitOutput (chunk : Chunk) (meta : option Metadata)
    (s : State) : State :=
  let s1 := outputCallback chunk meta s in
  {| decoder := decoder s1; renderer := renderer s1; encoder := encoder s1;
     muxer := muxer s1; cancelled := cancelled s1;
     encodeQueue := encodeQueue s1;
     muxingPromises := muxingPromises s1; chunkCount := chunkCount s1;
     videoDescription := videoDescription s1;
     videoColorSpace := videoColorSpace s1;
     closureDescription := closureDescription s1;
     encoderState := encoderState s1;
     encoderPending := pred (encoderPending s1);
     unsettled := unsettled s1; nextPromise := nextPromise s1;
     pc := pc s1; trace := trace s1 |}.

(** The encoder fails: it closes itself, drops its pending work and runs
    the [error] callback. *)
Definition failEncoder (message : string) (s : State) : State :=
  errorCallback message
  {| decoder := decoder s; renderer := renderer s; encoder := encoder s;
     muxer := muxer s; cancelled := cancelled s;
     encodeQueue := encodeQueue s;
     muxingPromises := muxingPromises s; chunkCount := chunkCount s;
     videoDescription := videoDescription s;
     videoColorSpace := videoColorSpace s;
     closureDescription := closureDescription s;
     encoderState := Closed;
     encoderPending := 0%nat;
     unsettled := unsettled s; nextPromise := nextPromise s;
     pc := pc s; trace := trace s |}.

(** An [addVideoChunk] promise settles; a rejection is caught inside the
    muxing promise and logged (lines 220-222). *)
Definition settleMux (p : nat) (o : Outcome) (s : State) : State :=
  let s1 :=
    {| decoder := decoder s; renderer := renderer s; encoder := encoder s;
       muxer := muxer s; cancelled := cancelled s;
       encodeQueue := encodeQueue s;
       muxingPromises := muxingPromises s; chunkCount := chunkCount s;
       videoDescription := videoDescription s;
       videoColorSpace := videoColorSpace s;
       closureDescription := closureDescription s;
       encoderState := encoderState s;
       encoderPending := encoderPending s;
       unsettled := filter (fun q => negb (Nat.eqb p q)) (unsettled s);
       nextPromise := nextPromise s;
       pc := pc s; trace := trace s |} in
  match o with
  | Ok => s1
  | Throw m => call (ConsoleError "Muxing error:" m) s1
  end.

Definition fire (e : Event) (s : State) : State :=
  match e with
  | Resume o => resume o s
  | Output c m => emitOutput c m s
  | EncoderError m => failEncoder m s
  | Cancel => cancel s
  | MuxSettled p o => settleMux p o s
  end.

(** One event; an event that cannot happen in [s] leaves it alone. *)
Definition step (e : Event) (s : State) : State :=
  if enabled e s then fire e s else s.

Fixpoint run (evs : list Event) (s : State) : State :=
  match evs with
  | [] => s
  | e :: rest => run rest (step e s)
  end.

(** A new [VideoExporter]. *)
Definition fresh : State :=
  {| decoder := false; renderer := false; encoder := false; muxer := false;
     cancelled := false; encodeQueue := 0; muxingPromises := [];
     chunkCount := 0%nat; videoDescription := None; videoColorSpace := None;
     closureDescription := None;
     encoderState := Unconfigured; encoderPending := 0%nat;
     unsettled := []; nextPromise := 0%nat;
     pc := Idle; trace := [] |}.

(** [export()] has just been called on it. *)
Definition initial : State := exportCall fresh.

(** The [output] callback run on a sequence of chunks, as the encoder
    emits them one after the other. *)
Definition emitAll (outs : list (Chunk * option Metadata)) (s : State) : State :=
  fold_left (fun st o => outputCallback (fst o) (snd o) st) outs s.

End WithConfig.

(** ** Reading a state and a trace *)

Definition beforeLoop (p : PC) : bool :=
  match p with
  | Idle | AwaitLoadVideo | AwaitRendererInit | AwaitEncoderInit _
  | AwaitMuxerInit => true
  | _ => false
  end.

Definition inLoop (p : PC) : bool :=
  match p with
  | AwaitFrameReady _ | AwaitRender _ | AwaitQueue _ => true
  | _ => false
  end.

(** The encoder exists (or has existed) and [export()] has not left the
    frame loop. *)
Definition encoderLive (p : PC) : bool :=
  match p with
  | AwaitEncoderInit Ok | AwaitMuxerInit
  | AwaitFrameReady _ | AwaitRender _ | AwaitQueue _ => true
  | _ => false
  end.

Definition isFinalize (c : Call) : bool :=
  match c with Finalize => true | _ => false end.

Definition isEncode (c : Call) : bool :=
  match c with Encode _ _ => true | _ => false end.

Definition isEncoderErrorLog (c : Call) : bool :=
  match c with
  | ConsoleError tag _ => String.eqb tag "VideoEncoder error:"
  | _ => false
  end.

Definition countFinalize (tr : list Call) : nat := List.length (filter isFinalize tr).
Definition countEncode (tr : list Call) : nat := List.length (filter isEncode tr).
Definition encoderErrorLogged (tr : list Call) : bool := existsb isEncoderErrorLog tr.
Definition flushDone (tr : list Call) : bool :=
  existsb (fun c => match c with Flushed => true | _ => false end) tr.

Definition isResume (e : Event) : bool :=
  match e with Resume _ => true | _ => false end.

(** The metadata passed to [addVideoChunk], oldest call first. *)
Fixpoint forwarded (tr : list Call) : list (option Metadata) :=
  match tr with
  | [] => []
  | AddVideoChunk _ _ m :: rest => (forwarded rest ++ [m])%list
  | _ :: rest => forwarded rest
  end.

(** ** The invariant of a run *)

Record Inv (s : State) : Prop := {
  inv_bounds : 0 <= encodeQueue s <= MAX_ENCODE_QUEUE;
  inv_configured : isConfigured (encoderState s) = true ->
                   encoder s = true /\
                   encodeQueue s = Z.of_nat (encoderPending s);
  inv_cancel : inLoop (pc s) = true -> cancelled s = true -> encoder s = false;
  inv_before : beforeLoop (pc s) = true ->
               unsettled s = [] /\ encoderPending s = 0%nat;
  inv_unsettled : muxer s = true -> incl (unsettled s) (muxingPromises s);
  inv_error : encoderLive (pc s) = true -> cancelled s = false ->
              isConfigured (encoderState s) = false ->
              encoderErrorLogged (trace s) = true;
  inv_muxing : match pc s with
               | AwaitMuxing snapshot =>
                   (muxer s = true ->
                    snapshot = muxingPromises s /\
                    (isConfigured (encoderState s) = true ->
                     encoderPending s = 0%nat)) /\
                   (flushDone (trace s) = true \/
                    encoderErrorLogged (trace s) = true)
               | _ => True
               end;
  inv_finalize : match pc s with
                 | AwaitFinalize | Returned Success =>
                     countFinalize (trace s) = 1%nat
                 | Returned (Failure _) => (countFinalize (trace s) <= 1)%nat
                 | _ => countFinalize (trace s) = 0%nat
                 end
}.

(** ** Concrete runs used below *)

Definition sampleConfig : Config :=
  {| codec := None; cfgWidth := 640; cfgHeight := 360; onProgress := true |}.

Definition samplePlatform (frames : nat) : Platform :=
  {| totalFrames := frames; needsSeek := fun _ => true;
     configureHardware := Ok; configureSoftware := Ok; videoElement := true |}.

(** Video loaded, renderer, encoder and muxer initialised: [export()]
    waits for frame 0. *)
Definition boot : list Event := [Resume Ok; Resume Ok; Resume Ok; Resume Ok].

(** One iteration with an open queue: frame ready, frame rendered. *)
Definition frame : list Event := [Resume Ok; Resume Ok].

Fixpoint frames (n : nat) : list Event :=
  match n with
  | O => []
  | S k => (frame ++ frames k)%list
  end.

Definition rec2020 : ColorSpace :=
  {| primaries := "bt2020"; transfer := "pq"; matrix := "bt2020-ncl";
     fullRange := false |}.

Definition encoderMeta (cs : option ColorSpace) : Metadata :=
  {| decoderConfig := Some
       {| dcCodec := "avc1.64001f"; codedWidth := Some 640;
          codedHeight := Some 360; description := Some [Byte.x01];
          colorSpace := cs |} |}.

(** ** Reading more of a trace *)

Definition isAddVideoChunk (c : Call) : bool :=
  match c with AddVideoChunk _ _ _ => true | _ => false end.

Definition isProgress (c : Call) : bool :=
  match c with Progress _ _ => true | _ => false end.

Definition countAdd (tr : list Call) : nat :=
  List.length (filter isAddVideoChunk tr).

Definition countProgress (tr : list Call) : nat :=
  List.length (filter isProgress tr).

(** The frames passed to [encode], with their key-frame flag, and the
    progress reports, oldest first. *)
Fixpoint encodedFrames (tr : list Call) : list (nat * bool) :=
  match tr with
  | [] => []
  | Encode i k :: rest => (encodedFrames rest ++ [(i, k)])%list
  | _ :: rest => encodedFrames rest
  end.

Fixpoint progressReports (tr : list Call) : list (nat * nat) :=
  match tr with
  | [] => []
  | Progress c t :: rest => (progressReports rest ++ [(c, t)])%list
  | _ :: rest => progressReports rest
  end.

(** Every frame encoded is below [n], carries the key-frame flag of line
    128, and the frames were submitted in increasing order. *)
Fixpoint ordered (n : nat) (tr : list Call) : Prop :=
  match tr with
  | [] => True
  | Encode i k :: rest =>
      (i < n)%nat /\ k = (i mod 150 =? 0)%nat /\ ordered i rest
  | _ :: rest => ordered n rest
  end.

(** The frames encoded are exactly [0 .. n-1], in this order. *)
Fixpoint dense (n : nat) (tr : list Call) : Prop :=
  match tr with
  | [] => n = 0%nat
  | Encode i _ :: rest => n = S i /\ dense i rest
  | _ :: rest => dense n rest
  end.

(** The progress reports are exactly [1 .. k], in this order, each with
    the same total. *)
Fixpoint progressSeq (total k : nat) (tr : list Call) : Prop :=
  match tr with
  | [] => k = 0%nat
  | Progress c t :: rest =>
      c = k /\ t = total /\ (1 <= k)%nat /\ progressSeq total (pred k) rest
  | _ :: rest => progressSeq total k rest
  end.

(** The number of loop iterations [export()] has completed when it is
    suspended at [p]; past the loop on the way to success, all of
    them. *)
Definition frontier (total : nat) (p : PC) : nat :=
  match p with
  | Idle | AwaitLoadVideo | AwaitRendererInit | AwaitEncoderInit _
  | AwaitMuxerInit => 0
  | AwaitFrameReady i | AwaitRender i | AwaitQueue i => i
  | _ => total
  end.

(** [export()] has passed line 65, where the muxer is made. *)
Definition muxerLive (p : PC) : bool :=
  match p with
  | Idle | AwaitLoadVideo | AwaitRendererInit | AwaitEncoderInit _ => false
  | _ => true
  end.

(** [finalize()] has been called and has not failed. *)
Definition finalizing (p : PC) : bool :=
  match p with
  | AwaitFinalize | Returned Success => true
  | _ => false
  end.

(** [export()] has not got past [initializeEncoder], or has failed. *)
Definition beforeEncoder (p : PC) : bool :=
  match p with
  | AwaitLoadVideo | AwaitRendererInit | AwaitEncoderInit (Throw _)
  | Returned (Failure _) => true
  | _ => false
  end.

(** Frame [i] as line 128 submits it. *)
Definition keyFrameOf (i : nat) : nat * bool := (i, (i mod 150 =? 0)%nat).

(** Everything [cleanup()] is there to release has been released. *)
Definition released (s : State) : Prop :=
  decoder s = false /\ renderer s = false /\ encoder s = false /\
  muxer s = false /\ encodeQueue s = 0 /\ muxingPromises s = [] /\
  chunkCount s = 0%nat /\ videoDescription s = None /\
  videoColorSpace s = None /\ isConfigured (encoderState s) = false.

(** The first description, or colour space, found in the metadata of a
    sequence of chunks. *)
Fixpoint firstDescription (outs : list (Chunk * option Metadata))
  : option (list Byte.byte) :=
  match outs with
  | [] => None
  | (_, m) :: rest =>
      match metaDescription m with
      | Some d => Some d
      | None => firstDescription rest
      end
  end.

Fixpoint firstColorSpace (outs : list (Chunk * option Metadata))
  : option ColorSpace :=
  match outs with
  | [] => None
  | (_, m) :: rest =>
      match metaColorSpace m with
      | Some cs => Some cs
      | None => firstColorSpace rest
      end
  end.

Section RunInvariant.

Variable cfg : Config.
Variable env : Platform.

(** ** A second invariant: what has been encoded, reported and muxed *)

Record Inv2 (s : State) : Prop := {
  i2_inloop : inLoop (pc s) = true ->
              (frontier (totalFrames env) (pc s) < totalFrames env)%nat;
  i2_ordered : ordered (frontier (totalFrames env) (pc s)) (trace s);
  i2_progress :
    if onProgress cfg then
      match pc s with
      | Returned (Failure _) =>
          exists k, (k <= totalFrames env)%nat /\
                    progressSeq (totalFrames env) k (trace s)
      | _ => progressSeq (totalFrames env)
               (frontier (totalFrames env) (pc s)) (trace s)
      end
    else countProgress (trace s) = 0%nat;
  i2_before : beforeLoop (pc s) = true -> countAdd (trace s) = 0%nat;
  i2_balance : isConfigured (encoderState s) = true ->
               countEncode (trace s)
               = (countAdd (trace s) + encoderPending s)%nat;
  i2_muxer : isConfigured (encoderState s) = true ->
             muxerLive (pc s) = true -> muxer s = true;
  i2_clean :
    encoderErrorLogged (trace s) = false ->
    match pc s with
    | AwaitFrameReady i | AwaitRender i | AwaitQueue i =>
        cancelled s = false -> dense i (trace s)
    | AwaitFlush => dense (totalFrames env) (trace s)
    | AwaitMuxing _ | AwaitFinalize | Returned Success =>
        dense (totalFrames env) (trace s) /\
        countAdd (trace s) = totalFrames env /\
        flushDone (trace s) = true
    | _ => True
    end;
  i2_drained : match pc s with
               | AwaitMuxing _ | AwaitFinalize =>
                   isConfigured (encoderState s) = true ->
                   encoderPending s = 0%nat
               | _ => True
               end;
  i2_released : match pc s with
                | Returned _ => released s
                | _ => True
                end;
  i2_doom : cancelled s = true ->
            decoder s = false /\
            (beforeLoop (pc s) = false ->
             renderer s = false /\ muxer s = false /\
             isConfigured (encoderState s) = false)
}.

End RunInvariant.

(** Two frames encoded, both chunks emitted and muxed, flush, finalize. *)
Definition successRun : list Event :=
  (boot ++ frame ++ frame
   ++ [Output 0%nat None; Output 1%nat None; Resume Ok;
       MuxSettled 0%nat Ok; MuxSettled 1%nat Ok; Resume Ok; Resume Ok])%list.

(** A platform on which both [configure] calls throw. *)
Definition noEncoderPlatform : Platform :=
  {| totalFrames := 3; needsSeek := fun _ => true;
     configureHardware := Throw "NotSupportedError";
     configureSoftware := Throw "no software encoder";
     videoElement := true |}.

End Exporter.

(* ================================================================== *)
(** * Properties of the zoom transform *)
(* ================================================================== *)

Module ZoomTransformFacts.

Import ZoomTransform.
Local Open Scope Q_scope.

(** ** Lemmas on the guard and on clamping *)

Lemma falsy_true (n : Q) : falsy n = true <-> n == 0.
Proof. unfold falsy. apply Qeq_bool_iff. Qed.

Lemma degenerate_true (p : TransformParams) :
  degenerate p = true <-> guardFires p.
Proof.
  unfold degenerate, guardFires.
  rewrite !orb_true_iff, !falsy_true, !Qle_bool_iff. tauto.
Qed.

Lemma clampAxis_unclamped (lo hi v : Q) : hi < lo -> clampAxis lo hi v = v.
Proof.
  intros H. unfold clampAxis.
  destruct (Qle_bool lo hi) eqn:E; [|reflexivity].
  apply Qle_bool_iff in E. exfalso. apply (Qlt_irrefl hi).
  eapply Qlt_le_trans; eassumption.
Qed.

Lemma clampAxis_bounds (lo hi v : Q) :
  lo <= hi -> lo <= clampAxis lo hi v /\ clampAxis lo hi v <= hi.
Proof.
  intros H. unfold clampAxis.
  assert (E : Qle_bool lo hi = true) by (apply Qle_bool_iff; exact H).
  rewrite E. split.
  - apply Q.le_max_l.
  - apply Q.max_lub; [exact H | apply Q.le_min_l].
Qed.

Lemma clampAxis_id (lo hi v : Q) :
  (lo <= hi -> lo <= v /\ v <= hi) -> clampAxis lo hi v == v.
Proof.
  intros H. unfold clampAxis.
  destruct (Qle_bool lo hi) eqn:E; [|reflexivity].
  apply Qle_bool_iff in E. destruct (H E) as [H1 H2].
  rewrite (Q.min_r hi v H2). apply Q.max_r. exact H1.
Qed.

Lemma position_applyZoomTransform (p : TransformParams) (s : Scene) :
  degenerate p = false ->
  position (videoSprite (applyZoomTransform p s)) =
  {| x := newVideoX p; y := newVideoY p |}.
Proof. intros H. unfold applyZoomTransform. rewrite H. reflexivity. Qed.

(** ** The degenerate case *)

(** C5, as the specification states it, fails: a negative stage width is
    a non-positive dimension, yet the guard tests the stage and video
    sizes for zero only, and the transform goes on to rescale the sprite
    and redraw the mask. *)
Lemma applyZoomTransform_negative_stage_not_noop :
  nonPositiveDimension (mkParams (-1) 100 100 2 (1 # 2) 0) /\
  applyZoomTransform (mkParams (-1) 100 100 2 (1 # 2) 0) unitScene <> unitScene.
Proof.
  split.
  - left. vm_compute. discriminate.
  - intros H. apply (f_equal maskGraphics) in H. vm_compute in H. discriminate H.
Qed.

(** C5 (amended): whenever a stage or video dimension is zero, or
    [baseScale] or a mask dimension is not positive, [applyZoomTransform]
    returns the scene as it received it: sprite scale and position, mask
    graphics and blur filter are untouched. *)
Theorem applyZoomTransform_noop (p : TransformParams) (s : Scene) :
  guardFires p -> applyZoomTransform p s = s.
Proof.
  intros H. apply degenerate_true in H.
  unfold applyZoomTransform. rewrite H. reflexivity.
Qed.

Lemma applyZoomTransform_noop_witness :
  guardFires (mkParams 0 100 100 2 (1 # 2) 0) /\
  applyZoomTransform (mkParams 0 100 100 2 (1 # 2) 0) unitScene = unitScene.
Proof.
  assert (G : guardFires (mkParams 0 100 100 2 (1 # 2) 0)).
  { left. vm_compute. reflexivity. }
  split; [exact G | exact (applyZoomTransform_noop _ unitScene G)].
Defined.

(** ** The anchoring law *)

(** C6: for a geometry that passes the guard, the position computed
    before clamping is, on each axis, the specification's
    [center - (focusPx - baseOffset) * zoomScale]; the offset is scaled
    by [zoomScale] and not by [actualScale]; the position written to the
    sprite is that candidate passed through the per-axis clamp; and the
    candidate puts at the stage centre the point of the video that the
    base layout shows at the focus pixel. *)
Theorem unclamped_position_anchors_focus (p : TransformParams) (s : Scene) :
  degenerate p = false ->
  newVideoX0 p =
    spec_newOrigin (rx (baseMask p)) (focusX p) (width (stageSize p))
                   (x (baseOffset p)) (zoomScale p) /\
  newVideoY0 p =
    spec_newOrigin (ry (baseMask p)) (focusY p) (height (stageSize p))
                   (y (baseOffset p)) (zoomScale p) /\
  position (videoSprite (applyZoomTransform p s)) =
    {| x := clampAxis (minVideoX p) (maxVideoX p) (newVideoX0 p);
       y := clampAxis (minVideoY p) (maxVideoY p) (newVideoY0 p) |} /\
  (forall u, x (baseOffset p) + u * baseScale p == focusStagePxX p ->
             newVideoX0 p + u * actualScale p == stageCenterX p) /\
  (forall v, y (baseOffset p) + v * baseScale p == focusStagePxY p ->
             newVideoY0 p + v * actualScale p == stageCenterY p).
Proof.
  intros H. split; [reflexivity|]. split; [reflexivity|]. split; [|split].
  - apply position_applyZoomTransform. exact H.
  - intros u Hu. unfold newVideoX0, focusInVideoSpaceX, actualScale.
    rewrite <- Hu. ring.
  - intros v Hv. unfold newVideoY0, focusInVideoSpaceY, actualScale.
    rewrite <- Hv. ring.
Qed.

Lemma unclamped_position_anchors_focus_witness :
  newVideoX0 (mkParams 200 100 100 2 (1 # 4) 10) =
    spec_newOrigin 0 (1 # 4) 200 10 2.
Proof.
  refine (proj1 (unclamped_position_anchors_focus
                   (mkParams 200 100 100 2 (1 # 4) 10) unitScene _)).
  vm_compute. reflexivity.
Defined.

(** ** Clamping *)

(** C7: for a geometry that passes the guard and on each axis, with
    [min = maskOrigin + maskSize - cropEnd * actualScale] and
    [max = maskOrigin - cropStart * actualScale]: when [min > max] the
    position written to the sprite is the unclamped candidate, otherwise
    it lies in [[min, max]]. *)
Theorem position_clamped_per_axis (p : TransformParams) (s : Scene) :
  degenerate p = false ->
  let pos := position (videoSprite (applyZoomTransform p s)) in
  let minX := spec_min (rx (baseMask p)) (rwidth (baseMask p))
                       (x (cropOffset p) + width (videoSize p)) (actualScale p) in
  let maxX := spec_max (rx (baseMask p)) (x (cropOffset p)) (actualScale p) in
  let minY := spec_min (ry (baseMask p)) (rheight (baseMask p))
                       (y (cropOffset p) + height (videoSize p)) (actualScale p) in
  let maxY := spec_max (ry (baseMask p)) (y (cropOffset p)) (actualScale p) in
  (maxX < minX -> x pos = newVideoX0 p) /\
  (minX <= maxX -> minX <= x pos /\ x pos <= maxX) /\
  (maxY < minY -> y pos = newVideoY0 p) /\
  (minY <= maxY -> minY <= y pos /\ y pos <= maxY).
Proof.
  intros H. cbv zeta. rewrite (position_applyZoomTransform p s H). simpl.
  unfold newVideoX, newVideoY.
  change (spec_min (rx (baseMask p)) (rwidth (baseMask p))
            (x (cropOffset p) + width (videoSize p)) (actualScale p))
    with (minVideoX p).
  change (spec_max (rx (baseMask p)) (x (cropOffset p)) (actualScale p))
    with (maxVideoX p).
  change (spec_min (ry (baseMask p)) (rheight (baseMask p))
            (y (cropOffset p) + height (videoSize p)) (actualScale p))
    with (minVideoY p).
  change (spec_max (ry (baseMask p)) (y (cropOffset p)) (actualScale p))
    with (maxVideoY p).
  split; [intros Hc; apply clampAxis_unclamped; exact Hc|].
  split; [intros Hc; apply clampAxis_bounds; exact Hc|].
  split; [intros Hc; apply clampAxis_unclamped; exact Hc|].
  intros Hc; apply clampAxis_bounds; exact Hc.
Qed.

Lemma position_clamped_per_axis_witness :
  x (position (videoSprite
       (applyZoomTransform (mkParams 200 100 300 1 (1 # 4) 10) unitScene))) =
  newVideoX0 (mkParams 200 100 300 1 (1 # 4) 10).
Proof.
  refine (proj1 (position_clamped_per_axis
                   (mkParams 200 100 300 1 (1 # 4) 10) unitScene _) _).
  - vm_compute. reflexivity.
  - vm_compute. reflexivity.
Defined.

(** ** The identity case *)

Lemma clampAxis_compat (lo hi v w : Q) :
  v == w -> clampAxis lo hi v == clampAxis lo hi w.
Proof.
  intros E. unfold clampAxis. destruct (Qle_bool lo hi); [|exact E].
  destruct (Q.min_spec hi v) as [[H1 E1]|[H1 E1]];
    destruct (Q.min_spec hi w) as [[H2 E2]|[H2 E2]];
    destruct (Q.max_spec lo (Qmin hi v)) as [[H3 E3]|[H3 E3]];
    destruct (Q.max_spec lo (Qmin hi w)) as [[H4 E4]|[H4 E4]];
    rewrite E3, E4; rewrite ?E1, ?E2; rewrite ?E1, ?E2 in H3, H4;
    try reflexivity; try exact E; lra.
Qed.

(** C9, as the specification states it, fails: the base layout need not
    centre the video.  With a video twice as wide as the mask and a base
    offset of -10, all dimensions positive, zoom 1 and focus (0.5, 0.5),
    the position written is -10 (inside the clamp range [-100, 0]): the
    centre of the video is at 90, the centre of the mask at 50. *)
Lemma identity_zoom_off_centre_layout :
  let p := mkParams 200 200 100 1 (1 # 2) (-10) in
  let pos := position (videoSprite (applyZoomTransform p unitScene)) in
  degenerate p = false /\
  zoomScale p == 1 /\ focusX p == 1 # 2 /\ focusY p == 1 # 2 /\
  x pos == -10 /\
  videoCenter (x pos) (x (cropOffset p)) (width (videoSize p)) (actualScale p)
    == 90 /\
  maskCenter (rx (baseMask p)) (rwidth (baseMask p)) == 50 /\
  ~ videoCenter (x pos) (x (cropOffset p)) (width (videoSize p)) (actualScale p)
    == maskCenter (rx (baseMask p)) (rwidth (baseMask p)).
Proof. vm_compute. repeat split; discriminate. Qed.

(** C9 (amended): for a geometry that passes the guard, with
    [zoomScale = 1] and [focusX = focusY = 0.5] the candidate position
    is the base offset itself, and the position written to the sprite is
    the base offset passed through the clamp of each axis, hence within
    [[min, max]] where [min <= max].  On each axis where the base layout
    has the centre of the (cropped) video on the centre of the mask, the
    position written is the base offset and the centre stays there. *)
Theorem identity_zoom_keeps_center (p : TransformParams) (s : Scene) :
  degenerate p = false ->
  zoomScale p == 1 -> focusX p == 1 # 2 -> focusY p == 1 # 2 ->
  let pos := position (videoSprite (applyZoomTransform p s)) in
  newVideoX0 p == x (baseOffset p) /\
  newVideoY0 p == y (baseOffset p) /\
  (videoCenter (x (baseOffset p)) (x (cropOffset p)) (width (videoSize p))
               (baseScale p)
     == maskCenter (rx (baseMask p)) (rwidth (baseMask p)) ->
   x pos == x (baseOffset p) /\
   videoCenter (x pos) (x (cropOffset p)) (width (videoSize p)) (actualScale p)
     == maskCenter (rx (baseMask p)) (rwidth (baseMask p))) /\
  (videoCenter (y (baseOffset p)) (y (cropOffset p)) (height (videoSize p))
               (baseScale p)
     == maskCenter (ry (baseMask p)) (rheight (baseMask p)) ->
   y pos == y (baseOffset p) /\
   videoCenter (y pos) (y (cropOffset p)) (height (videoSize p)) (actualScale p)
     == maskCenter (ry (baseMask p)) (rheight (baseMask p))) /\
  x pos == clampAxis (minVideoX p) (maxVideoX p) (x (baseOffset p)) /\
  y pos == clampAxis (minVideoY p) (maxVideoY p) (y (baseOffset p)) /\
  (minVideoX p <= maxVideoX p ->
   minVideoX p <= x pos /\ x pos <= maxVideoX p) /\
  (minVideoY p <= maxVideoY p ->
   minVideoY p <= y pos /\ y pos <= maxVideoY p).
Proof.
  intros H Hz Hfx Hfy. cbv zeta.
  rewrite (position_applyZoomTransform p s H). simpl.
  assert (Hsc : actualScale p == baseScale p).
  { unfold actualScale. rewrite Hz. ring. }
  assert (HX : newVideoX0 p == x (baseOffset p)).
  { unfold newVideoX0, focusInVideoSpaceX, stageCenterX, focusStagePxX.
    rewrite Hz, Hfx. field. }
  assert (HY : newVideoY0 p == y (baseOffset p)).
  { unfold newVideoY0, focusInVideoSpaceY, stageCenterY, focusStagePxY.
    rewrite Hz, Hfy. field. }
  split; [exact HX|]. split; [exact HY|].
  split; [ | split; [ | split; [ | split; [ | split ] ] ] ].
  - unfold videoCenter, maskCenter. intros Hc.
    assert (E : newVideoX p == x (baseOffset p)).
    { unfold newVideoX. transitivity (newVideoX0 p); [|exact HX].
      apply clampAxis_id.
      unfold minVideoX, maxVideoX, cropEndX, cropStartX.
      rewrite Hsc, HX. intros Hle.
      unfold Qdiv in *. change (/ 2) with (1 # 2) in *. split; lra. }
    split; [exact E|]. rewrite E, Hsc. exact Hc.
  - unfold videoCenter, maskCenter. intros Hc.
    assert (E : newVideoY p == y (baseOffset p)).
    { unfold newVideoY. transitivity (newVideoY0 p); [|exact HY].
      apply clampAxis_id.
      unfold minVideoY, maxVideoY, cropEndY, cropStartY.
      rewrite Hsc, HY. intros Hle.
      unfold Qdiv in *. change (/ 2) with (1 # 2) in *. split; lra. }
    split; [exact E|]. rewrite E, Hsc. exact Hc.
  - unfold newVideoX. apply clampAxis_compat. exact HX.
  - unfold newVideoY. apply clampAxis_compat. exact HY.
  - intros Hc. apply clampAxis_bounds. exact Hc.
  - intros Hc. apply clampAxis_bounds. exact Hc.
Qed.

Lemma identity_zoom_keeps_center_witness :
  let p := mkParams 200 100 100 1 (1 # 2) 0 in
  let pos := position (videoSprite (applyZoomTransform p unitScene)) in
  x pos == x (baseOffset p) /\
  videoCenter (x pos) (x (cropOffset p)) (width (videoSize p)) (actualScale p)
    == maskCenter (rx (baseMask p)) (rwidth (baseMask p)).
Proof.
  intros p pos.
  assert (D : degenerate p = false) by (vm_compute; reflexivity).
  assert (Z1 : zoomScale p == 1) by (vm_compute; reflexivity).
  assert (FX : focusX p == 1 # 2) by (vm_compute; reflexivity).
  assert (FY : focusY p == 1 # 2) by (vm_compute; reflexivity).
  destruct (identity_zoom_keeps_center p unitScene D Z1 FX FY)
    as [_ [_ [HX _]]].
  apply HX. vm_compute. reflexivity.
Defined.

(** ** Further properties of the transform *)

Lemma guard_passed (p : TransformParams) :
  degenerate p = false ->
  ~ width (stageSize p) == 0 /\ ~ height (stageSize p) == 0 /\
  ~ width (videoSize p) == 0 /\ ~ height (videoSize p) == 0 /\
  0 < baseScale p /\ 0 < rwidth (baseMask p) /\ 0 < rheight (baseMask p).
Proof.
  intros H.
  assert (G : ~ guardFires p).
  { intros G. apply degenerate_true in G. congruence. }
  unfold guardFires in G.
  repeat split; try (intros E; apply G; tauto);
    apply Qnot_le_lt; intros E; apply G; tauto.
Qed.

(** X1: applying the transform twice with the same parameters is the
    same as applying it once, and the sprite and the mask it leaves do
    not depend on what the scene held before. *)
Theorem applyZoomTransform_idempotent (p : TransformParams) (s s' : Scene) :
  applyZoomTransform p (applyZoomTransform p s) = applyZoomTransform p s /\
  (degenerate p = false ->
   videoSprite (applyZoomTransform p s) = videoSprite (applyZoomTransform p s') /\
   maskGraphics (applyZoomTransform p s) = maskGraphics (applyZoomTransform p s')).
Proof.
  unfold applyZoomTransform. destruct (degenerate p) eqn:D.
  - split; [reflexivity | discriminate].
  - split; [|intros _; split; reflexivity].
    simpl. destruct (blurFilter s); reflexivity.
Qed.

Lemma applyZoomTransform_idempotent_witness :
  videoSprite (applyZoomTransform (mkParams 200 100 100 2 (1 # 4) 10) unitScene)
  = videoSprite (applyZoomTransform (mkParams 200 100 100 2 (1 # 4) 10) usedScene).
Proof.
  refine (proj1 (proj2 (applyZoomTransform_idempotent
                          (mkParams 200 100 100 2 (1 # 4) 10)
                          unitScene usedScene) _)).
  vm_compute. reflexivity.
Defined.

(** X2: motion blur.  For parameters that pass the guard, a scene
    without blur filter stays without one; otherwise the blur written is
    between 0 and 6, it is 0 when the video is not playing or the motion
    intensity is at most 0.0005, it is [min(6, 120 * intensity)] and
    positive when playing above that threshold, and it is 6 from an
    intensity of 0.05 on. *)
Theorem motion_blur_bounds (p : TransformParams) (s : Scene) :
  degenerate p = false ->
  (blurFilter s = None -> blurFilter (applyZoomTransform p s) = None) /\
  (forall old, blurFilter s = Some old ->
     exists b, blurFilter (applyZoomTransform p s) = Some b /\
       0 <= b /\ b <= 6 /\
       (isPlaying p = false \/ motionIntensity p <= 5 # 10000 -> b = 0) /\
       (isPlaying p = true -> 5 # 10000 < motionIntensity p ->
        b = Qmin 6 (motionIntensity p * 120) /\ 0 < b) /\
       (isPlaying p = true -> 5 # 100 <= motionIntensity p -> b == 6)).
Proof.
  intros D. unfold applyZoomTransform. rewrite D. simpl. split.
  - intros ->. reflexivity.
  - intros old ->. exists (motionBlur p). split; [reflexivity|].
    unfold motionBlur, Qgtb.
    destruct (isPlaying p) eqn:P; simpl.
    + destruct (Qle_bool (motionIntensity p) (5 # 10000)) eqn:L; simpl.
      * apply Qle_bool_iff in L.
        split; [lra|]. split; [lra|]. split; [reflexivity|]. split.
        -- intros _ H. lra.
        -- intros _ H. lra.
      * assert (L' : 5 # 10000 < motionIntensity p).
        { apply Qnot_le_lt. intros H. apply Qle_bool_iff in H. congruence. }
        destruct (Q.min_spec 6 (motionIntensity p * 120)) as [[H E]|[H E]].
        -- split; [rewrite E; lra|]. split; [apply Q.le_min_l|].
           split; [intros [H1|H1]; [discriminate | lra]|].
           split; [intros _ _; split; [reflexivity | rewrite E; lra]|].
           intros _ _. exact E.
        -- split; [rewrite E; lra|]. split; [apply Q.le_min_l|].
           split; [intros [H1|H1]; [discriminate | lra]|].
           split; [intros _ _; split; [reflexivity | rewrite E; lra]|].
           intros _ H5. rewrite E. lra.
    + split; [lra|]. split; [lra|]. split; [reflexivity|].
      split; discriminate.
Qed.

Lemma motion_blur_bounds_witness :
  exists b,
    blurFilter (applyZoomTransform
                  (playing (1 # 100) (mkParams 200 100 100 2 (1 # 4) 10))
                  usedScene) = Some b /\ 0 <= b /\ b <= 6.
Proof.
  destruct (proj2 (motion_blur_bounds
                     (playing (1 # 100) (mkParams 200 100 100 2 (1 # 4) 10))
                     usedScene eq_refl) 4 eq_refl)
    as [b [E [L [U _]]]].
  exists b. split; [exact E | split; assumption].
Defined.

(** X3: the clip mask.  For parameters that pass the guard the mask
    graphics end up holding exactly one rounded rectangle at [baseMask],
    filled white, whatever they held before; its corner radius is 2% of
    the shorter side, so it is positive and at most half of either
    side. *)
Theorem mask_redrawn (p : TransformParams) (s : Scene) :
  degenerate p = false ->
  exists r,
    maskGraphics (applyZoomTransform p s) =
      [RoundRect (rx (baseMask p)) (ry (baseMask p))
                 (rwidth (baseMask p)) (rheight (baseMask p)) r;
       Fill 16777215%Z] /\
    r * 50 == Qmin (rwidth (baseMask p)) (rheight (baseMask p)) /\
    0 < r /\
    2 * r <= rwidth (baseMask p) /\ 2 * r <= rheight (baseMask p).
Proof.
  intros D. destruct (guard_passed p D) as [_ [_ [_ [_ [_ [W H]]]]]].
  unfold applyZoomTransform. rewrite D. simpl.
  exists (maskRadius p). split; [reflexivity|]. unfold maskRadius.
  pose proof (Q.le_min_l (rwidth (baseMask p)) (rheight (baseMask p))) as Ml.
  pose proof (Q.le_min_r (rwidth (baseMask p)) (rheight (baseMask p))) as Mr.
  assert (M0 : 0 < Qmin (rwidth (baseMask p)) (rheight (baseMask p))).
  { destruct (Q.min_spec (rwidth (baseMask p)) (rheight (baseMask p)))
      as [[_ E]|[_ E]]; rewrite E; assumption. }
  set (m := Qmin (rwidth (baseMask p)) (rheight (baseMask p))) in *.
  clearbody m.
  split; [field|]. split; [lra|]. split; lra.
Qed.

Lemma mask_redrawn_witness :
  exists r,
    maskGraphics (applyZoomTransform (mkParams 200 100 100 2 (1 # 4) 10)
                                     usedScene) =
      [RoundRect 0 0 100 100 r; Fill 16777215%Z] /\ 0 < r.
Proof.
  destruct (mask_redrawn (mkParams 200 100 100 2 (1 # 4) 10) usedScene eq_refl)
    as [r [E [_ [P _]]]].
  exists r. split; [exact E | exact P].
Defined.

(** X4: the clamp is what keeps the mask filled.  For parameters that
    pass the guard and on each axis: when the clamp applies
    ([min <= max]) the scaled crop region, placed at the position
    written to the sprite, starts at or before the mask and ends at or
    after it; the clamp is skipped exactly when the scaled crop region
    is narrower than the mask. *)
Theorem clamped_video_covers_mask (p : TransformParams) (s : Scene) :
  degenerate p = false ->
  let pos := position (videoSprite (applyZoomTransform p s)) in
  (minVideoX p <= maxVideoX p ->
   x pos + cropStartX p * actualScale p <= rx (baseMask p) /\
   rx (baseMask p) + rwidth (baseMask p) <= x pos + cropEndX p * actualScale p) /\
  (minVideoY p <= maxVideoY p ->
   y pos + cropStartY p * actualScale p <= ry (baseMask p) /\
   ry (baseMask p) + rheight (baseMask p) <= y pos + cropEndY p * actualScale p) /\
  (maxVideoX p < minVideoX p <->
   width (videoSize p) * actualScale p < rwidth (baseMask p)) /\
  (maxVideoY p < minVideoY p <->
   height (videoSize p) * actualScale p < rheight (baseMask p)).
Proof.
  intros D. cbv zeta. rewrite (position_applyZoomTransform p s D). simpl.
  split; [|split; [|split]].
  - intros H. destruct (clampAxis_bounds _ _ (newVideoX0 p) H) as [L U].
    fold (newVideoX p) in L, U. unfold minVideoX, maxVideoX in L, U.
    split; lra.
  - intros H. destruct (clampAxis_bounds _ _ (newVideoY0 p) H) as [L U].
    fold (newVideoY p) in L, U. unfold minVideoY, maxVideoY in L, U.
    split; lra.
  - unfold minVideoX, maxVideoX, cropEndX, cropStartX. split; intros H; lra.
  - unfold minVideoY, maxVideoY, cropEndY, cropStartY. split; intros H; lra.
Qed.

Lemma clamped_video_covers_mask_witness :
  let p := mkParams 200 100 100 2 (1 # 4) 10 in
  let pos := position (videoSprite (applyZoomTransform p unitScene)) in
  x pos + cropStartX p * actualScale p <= rx (baseMask p) /\
  rx (baseMask p) + rwidth (baseMask p) <= x pos + cropEndX p * actualScale p.
Proof.
  intros p pos.
  refine (proj1 (clamped_video_covers_mask p unitScene _) _).
  - vm_compute. reflexivity.
  - vm_compute. discriminate.
Defined.

Lemma clampAxis_monotone (lo hi v w : Q) :
  v <= w -> clampAxis lo hi v <= clampAxis lo hi w.
Proof.
  intros H. unfold clampAxis. destruct (Qle_bool lo hi); [|exact H].
  apply Q.max_le_compat_l. apply Q.min_le_compat_l. exact H.
Qed.

(** X5: panning follows the focus.  With a positive stage size and a
    non-negative zoom, moving the focus to the right (or down) never
    moves the sprite to the right (or down): the position written is
    antitone in the focus on each axis. *)
Theorem position_antitone_in_focus (p : TransformParams) (s : Scene)
    (fx fx' fy fy' : Q) :
  degenerate p = false ->
  0 < width (stageSize p) -> 0 < height (stageSize p) ->
  0 <= zoomScale p ->
  fx <= fx' -> fy <= fy' ->
  x (position (videoSprite (applyZoomTransform (withFocus fx' fy' p) s)))
    <= x (position (videoSprite (applyZoomTransform (withFocus fx fy p) s))) /\
  y (position (videoSprite (applyZoomTransform (withFocus fx' fy' p) s)))
    <= y (position (videoSprite (applyZoomTransform (withFocus fx fy p) s))).
Proof.
  intros D W H Z FX FY.
  assert (D1 : degenerate (withFocus fx fy p) = false) by exact D.
  assert (D2 : degenerate (withFocus fx' fy' p) = false) by exact D.
  rewrite (position_applyZoomTransform _ s D1),
          (position_applyZoomTransform _ s D2). simpl.
  unfold newVideoX, newVideoY. split.
  - change (minVideoX (withFocus fx' fy' p)) with (minVideoX p).
    change (maxVideoX (withFocus fx' fy' p)) with (maxVideoX p).
    change (minVideoX (withFocus fx fy p)) with (minVideoX p).
    change (maxVideoX (withFocus fx fy p)) with (maxVideoX p).
    apply clampAxis_monotone.
    unfold newVideoX0, focusInVideoSpaceX, stageCenterX, focusStagePxX. simpl.
    assert (M : fx * width (stageSize p) * zoomScale p
                <= fx' * width (stageSize p) * zoomScale p).
    { apply Qmult_le_compat_r; [|exact Z].
      apply Qmult_le_compat_r; [exact FX | apply Qlt_le_weak; exact W]. }
    lra.
  - change (minVideoY (withFocus fx' fy' p)) with (minVideoY p).
    change (maxVideoY (withFocus fx' fy' p)) with (maxVideoY p).
    change (minVideoY (withFocus fx fy p)) with (minVideoY p).
    change (maxVideoY (withFocus fx fy p)) with (maxVideoY p).
    apply clampAxis_monotone.
    unfold newVideoY0, focusInVideoSpaceY, stageCenterY, focusStagePxY. simpl.
    assert (M : fy * height (stageSize p) * zoomScale p
                <= fy' * height (stageSize p) * zoomScale p).
    { apply Qmult_le_compat_r; [|exact Z].
      apply Qmult_le_compat_r; [exact FY | apply Qlt_le_weak; exact H]. }
    lra.
Qed.

Lemma position_antitone_in_focus_witness :
  let p := mkParams 200 100 100 2 (1 # 4) 10 in
  x (position (videoSprite
       (applyZoomTransform (withFocus (3 # 4) (1 # 2) p) unitScene)))
  <= x (position (videoSprite
       (applyZoomTransform (withFocus (1 # 4) (1 # 2) p) unitScene))).
Proof.
  intros p.
  refine (proj1 (position_antitone_in_focus p unitScene
                   (1 # 4) (3 # 4) (1 # 2) (1 # 2) _ _ _ _ _ _));
    vm_compute; try reflexivity; discriminate.
Defined.



End ZoomTransformFacts.

(* ================================================================== *)
(** * Properties of the exporter *)
(* ================================================================== *)

Module ExporterFacts.

Import Exporter.
Local Open Scope string_scope.
Local Open Scope Z_scope.

Section Facts.

Variable cfg : Config.
Variable env : Platform.

(** ** The invariant holds along every run *)

Lemma Inv_initial : Inv initial.
Proof.
  constructor; simpl; unfold MAX_ENCODE_QUEUE; auto; try lia;
    try discriminate; try (intros _; apply incl_nil_l).
Qed.

Lemma countFinalize_cons (c : Call) (tr : list Call) :
  countFinalize (c :: tr) =
  ((if isFinalize c then 1 else 0) + countFinalize tr)%nat.
Proof. unfold countFinalize. simpl. destruct (isFinalize c); reflexivity. Qed.

Lemma Inv_cancel (s : State) : Inv s -> Inv (cancel s).
Proof.
  intros [Hb Hc Hk Hp Hu He Hm Hf].
  destruct s as [dec ren enc mux can q mp cc vd vcs cd st pend uns np p tr].
  constructor; simpl in *; unfold MAX_ENCODE_QUEUE in *.
  - lia.
  - destruct enc, st; simpl; try discriminate. intros E; destruct (Hc E); discriminate.
  - reflexivity.
  - intros B. destruct (Hp B) as [-> ->]. split; [reflexivity|]. destruct (enc && isConfigured st); reflexivity.
  - discriminate.
  - discriminate.
  - destruct p; auto. split; [discriminate|]. apply Hm.
  - exact Hf.
Qed.

Ltac open_inv H :=
  destruct H as [Hb Hc Hk Hp Hu He Hm Hf];
  match goal with
  | s : State |- _ =>
      destruct s as [dec ren enc mux can q mp cc vd vcs cd st pend uns np p tr]
  end;
  simpl in *.

Lemma Inv_returnWith (r : ExportResult) (s : State) :
  Inv s ->
  (countFinalize (trace s) <= 1)%nat ->
  (r = Success -> countFinalize (trace s) = 1%nat) ->
  Inv (returnWith r s).
Proof.
  intros H H1 H2. open_inv H.
  constructor; simpl; unfold MAX_ENCODE_QUEUE; try lia; try discriminate; auto.
  - destruct enc, st; simpl; try discriminate.
    intros E. destruct (Hc E). discriminate.
  - destruct r; auto.
Qed.

Lemma Inv_throwError (m : string) (s : State) :
  Inv s -> (countFinalize (trace s) <= 1)%nat -> Inv (throwError m s).
Proof.
  intros H H1. open_inv H.
  constructor; simpl; unfold MAX_ENCODE_QUEUE; try lia; try discriminate; auto.
  destruct enc, st; simpl; try discriminate.
  intros E. destruct (Hc E). discriminate.
Qed.

Lemma countFinalize_live (s : State) :
  Inv s -> encoderLive (pc s) = true -> countFinalize (trace s) = 0%nat.
Proof.
  intros H L. destruct H as [_ _ _ _ _ _ _ Hf].
  destruct (pc s) as [ | | | [|] | | | | | | | | ]; try discriminate; exact Hf.
Qed.

Lemma Inv_afterLoop (s : State) :
  Inv s -> encoderLive (pc s) = true -> Inv (afterLoop s).
Proof.
  intros H L. pose proof (countFinalize_live s H L) as F0.
  unfold afterLoop. destruct (cancelled s) eqn:Ec.
  { apply Inv_returnWith; [exact H | lia | discriminate]. }
  destruct (encoder s && isConfigured (encoderState s)) eqn:E.
  - open_inv H. constructor; simpl; auto; discriminate.
  - unfold awaitMuxing. open_inv H. subst can.
    constructor; simpl; auto; try discriminate.
    assert (N : isConfigured st = false).
    { destruct (isConfigured st) eqn:C; [|reflexivity].
      destruct (Hc eq_refl) as [-> _]. discriminate E. }
    split.
    + intros _. split; [reflexivity|]. rewrite N. discriminate.
    + right. apply He; auto.
Qed.

Lemma Inv_renderStep (i : nat) (s : State) :
  Inv s -> encoderLive (pc s) = true ->
  (cancelled s = true -> encoder s = false) ->
  Inv (renderStep i s).
Proof.
  intros H L K. pose proof (countFinalize_live s H L) as F0.
  unfold renderStep. destruct (renderer s).
  - open_inv H. constructor; simpl; auto; discriminate.
  - apply Inv_throwError; [exact H | lia].
Qed.

Lemma Inv_loopTop (i : nat) (s : State) :
  Inv s -> encoderLive (pc s) = true -> Inv (loopTop env i s).
Proof.
  intros H L. pose proof (countFinalize_live s H L) as F0.
  unfold loopTop.
  destruct ((i <? totalFrames env)%nat && negb (cancelled s)) eqn:E.
  - apply andb_true_iff in E. destruct E as [_ E].
    apply negb_true_iff in E.
    destruct (needsSeek env i || (i =? 0)%nat).
    + open_inv H. subst can. constructor; simpl; auto; discriminate.
    + apply Inv_renderStep; auto. rewrite E. discriminate.
  - apply Inv_afterLoop; assumption.
Qed.

Lemma pc_submitFrame (i : nat) (s : State) : pc (submitFrame cfg env i s) = pc s.
Proof.
  unfold submitFrame.
  destruct (encoder s && isConfigured (encoderState s)), (onProgress cfg);
    reflexivity.
Qed.

Lemma Inv_submitFrame (i : nat) (s : State) :
  Inv s -> inLoop (pc s) = true ->
  encodeQueue s < MAX_ENCODE_QUEUE \/ cancelled s = true ->
  Inv (submitFrame cfg env i s).
Proof.
  intros H L B. unfold submitFrame.
  assert (H1 : Inv (if encoder s && isConfigured (encoderState s)
                    then submit i s else s)).
  { destruct (encoder s && isConfigured (encoderState s)) eqn:E; [|exact H].
    apply andb_true_iff in E. destruct E as [E1 E2].
    open_inv H. subst enc. destruct (Hc E2) as [_ ->].
    assert (Z.of_nat pend < MAX_ENCODE_QUEUE).
    { destruct B as [B|B]; [exact B|]. subst can. specialize (Hk L eq_refl).
      discriminate. }
    unfold MAX_ENCODE_QUEUE in *.
    destruct p; try discriminate L;
      constructor; simpl; unfold MAX_ENCODE_QUEUE; auto; try lia;
        try discriminate; try (intros _; split; [reflexivity | lia]). }
  destruct (onProgress cfg); [|exact H1].
  set (s1 := if encoder s && isConfigured (encoderState s)
             then submit i s else s) in *.
  assert (L1 : inLoop (pc s1) = true).
  { subst s1. destruct (encoder s && isConfigured (encoderState s)); exact L. }
  clearbody s1. clear H B L. rename s1 into s'.
  open_inv H1.
  destruct p; try discriminate L1; constructor; simpl; auto.
Qed.

Lemma Inv_backpressure (i : nat) (s : State) :
  Inv s -> inLoop (pc s) = true -> Inv (backpressure cfg env i s).
Proof.
  intros H L. unfold backpressure.
  destruct ((MAX_ENCODE_QUEUE <=? encodeQueue s) && negb (cancelled s)) eqn:E.
  - open_inv H.
    destruct p; try discriminate L; constructor; simpl; auto; discriminate.
  - apply Inv_loopTop.
    + apply Inv_submitFrame; [exact H | exact L |].
      apply andb_false_iff in E. destruct E as [E|E].
      * left. apply Z.leb_gt in E. exact E.
      * right. apply negb_false_iff in E. exact E.
    + rewrite pc_submitFrame. destruct (pc s); try discriminate L; reflexivity.
Qed.

Lemma Inv_afterRender (i : nat) (s : State) :
  Inv s -> inLoop (pc s) = true -> Inv (afterRender cfg env i s).
Proof.
  intros H L. unfold afterRender. destruct (renderer s).
  - apply Inv_backpressure; assumption.
  - apply Inv_throwError; [exact H|].
    rewrite (countFinalize_live s H); [lia|].
    destruct (pc s); try discriminate L; reflexivity.
Qed.

Lemma Inv_enterLoop (s : State) :
  Inv s -> pc s = AwaitMuxerInit -> Inv (enterLoop env s).
Proof.
  intros H L.
  assert (L' : encoderLive (pc s) = true) by (rewrite L; reflexivity).
  pose proof (countFinalize_live s H L') as F0.
  unfold enterLoop. destruct (decoder s).
  - destruct (videoElement env).
    + apply Inv_loopTop; assumption.
    + apply Inv_throwError; [exact H | lia].
  - apply Inv_throwError; [exact H | lia].
Qed.

Lemma Inv_initializeEncoder (s : State) :
  Inv s -> pc s = AwaitRendererInit ->
  Inv (setPc (AwaitEncoderInit (snd (initializeEncoder env s)))
             (fst (initializeEncoder env s))).
Proof.
  intros H L. unfold initializeEncoder.
  destruct (configureHardware env); [|destruct (configureSoftware env)];
    open_inv H; subst p; destruct (Hp eq_refl) as [-> _];
    constructor; simpl; unfold MAX_ENCODE_QUEUE; auto; try lia;
      try discriminate; try (intros _; apply incl_nil_l).
Qed.


Lemma Inv_callFinalize (s : State) (snapshot : list nat) :
  Inv s -> pc s = AwaitMuxing snapshot -> Inv (callFinalize s).
Proof.
  intros H L. unfold callFinalize.
  assert (F0 : countFinalize (trace s) = 0%nat).
  { destruct H as [_ _ _ _ _ _ _ Hf]. rewrite L in Hf. exact Hf. }
  destruct (muxer s) eqn:M.
  - open_inv H. subst p. constructor; simpl; auto; try discriminate.
    rewrite countFinalize_cons. simpl. lia.
  - apply Inv_throwError; [exact H | lia].
Qed.

Lemma Inv_resume (o : Outcome) (s : State) :
  Inv s -> enabled (Resume o) s = true -> Inv (resume cfg env o s).
Proof.
  intros H En.
  assert (F1 : (countFinalize (trace s) <= 1)%nat).
  { destruct H as [_ _ _ _ _ _ _ Hf].
    destruct (pc s) as [ | | | | | | | | | | | [|]]; lia. }
  unfold resume. destruct (pc s) eqn:P.
  - destruct o; exact H.
  - destruct o; [|apply Inv_throwError; assumption].
    open_inv H. subst p. constructor; simpl; auto; discriminate.
  - destruct o; [|apply Inv_throwError; assumption].
    pose proof (Inv_initializeEncoder s H P) as I.
    destruct (initializeEncoder env s) as [s1 r]. exact I.
  - destruct r.
    + assert (I : Inv (setPc AwaitMuxerInit (setMuxer true s))).
      { open_inv H. subst p. destruct (Hp eq_refl) as [-> ->].
        constructor; simpl; auto; try discriminate.
        intros _. apply incl_nil_l. }
      destruct o; exact I.
    + destruct o; apply Inv_throwError; assumption.
  - destruct o; [|apply Inv_throwError; assumption].
    apply Inv_enterLoop; assumption.
  - assert (I : Inv (renderStep i s)).
    { apply Inv_renderStep; [exact H | rewrite P; reflexivity |].
      destruct H as [_ _ Hk _ _ _ _ _]. apply Hk. rewrite P. reflexivity. }
    destruct o; exact I.
  - destruct o; [|apply Inv_throwError; assumption].
    apply Inv_afterRender; [exact H | rewrite P; reflexivity].
  - assert (I : Inv (backpressure cfg env i s)).
    { apply Inv_backpressure; [exact H | rewrite P; reflexivity]. }
    destruct o; exact I.
  - destruct o; [|apply Inv_throwError; assumption].
    unfold enabled in En. rewrite P in En.
    apply andb_true_iff in En. destruct En as [E1 E2].
    apply Nat.eqb_eq in E2.
    unfold awaitMuxing. open_inv H. subst p.
    constructor; simpl; auto; discriminate.
  - assert (I : Inv (callFinalize s)) by (eapply Inv_callFinalize; eassumption).
    destruct o; exact I.
  - destruct o; [|apply Inv_throwError; assumption].
    apply Inv_returnWith; [exact H | exact F1 |].
    intros _. destruct H as [_ _ _ _ _ _ _ Hf]. rewrite P in Hf. exact Hf.
  - destruct o; exact H.
Qed.

Lemma Inv_emitOutput (c : Chunk) (m : option Metadata) (s : State) :
  Inv s -> enabled (Output c m) s = true -> Inv (emitOutput cfg c m s).
Proof.
  intros H En. unfold enabled in En.
  apply andb_true_iff in En. destruct En as [E1 E2].
  apply negb_true_iff in E2. apply Nat.eqb_neq in E2.
  open_inv H. destruct (Hc E1) as [-> ->].
  assert (B : beforeLoop p = false).
  { destruct (beforeLoop p); [|reflexivity]. destruct (Hp eq_refl). lia. }
  constructor; simpl; unfold MAX_ENCODE_QUEUE in *.
  - lia.
  - intros _. split; [reflexivity | lia].
  - exact Hk.
  - rewrite B. discriminate.
  - intros M. rewrite M. specialize (Hu M).
    intros a [<-|Ha]; apply in_or_app; [right; left; reflexivity | left; auto].
  - intros A B' C. rewrite (He A B' C). apply orb_true_r.
  - destruct p; auto. destruct Hm as [Hm1 Hm2]. split.
    + intros M. destruct (Hm1 M) as [_ Z0]. specialize (Z0 E1). lia.
    + destruct Hm2 as [-> | ->]; [left | right]; apply orb_true_r.
  - rewrite countFinalize_cons.
    replace (isFinalize _) with false by (destruct mux; reflexivity).
    exact Hf.
Qed.

Lemma Inv_failEncoder (m : string) (s : State) :
  Inv s -> Inv (failEncoder m s).
Proof.
  intros H. open_inv H.
  constructor; simpl.
  - exact Hb.
  - discriminate.
  - exact Hk.
  - intros B. destruct (Hp B) as [-> _]. auto.
  - exact Hu.
  - reflexivity.
  - destruct p; auto. destruct Hm as [Hm1 Hm2]. split.
    + intros M. destruct (Hm1 M) as [-> _]. split; [reflexivity | discriminate].
    + right. reflexivity.
  - exact Hf.
Qed.

Lemma Inv_call (c : Call) (s : State) :
  Inv s -> isFinalize c = false -> Inv (call c s).
Proof.
  intros H F. open_inv H. constructor; simpl.
  - exact Hb.
  - exact Hc.
  - exact Hk.
  - exact Hp.
  - exact Hu.
  - intros A B C. rewrite (He A B C). apply orb_true_r.
  - destruct p; auto. destruct Hm as [Hm1 Hm2]. split; [exact Hm1|].
    destruct Hm2 as [-> | ->]; [left | right]; apply orb_true_r.
  - rewrite countFinalize_cons, F. exact Hf.
Qed.

Lemma Inv_settleMux (promise : nat) (o : Outcome) (s : State) :
  Inv s -> Inv (settleMux promise o s).
Proof.
  intros H. unfold settleMux.
  destruct o as [|m]; [|apply Inv_call; [|reflexivity]];
    open_inv H; (constructor; simpl;
    [ exact Hb | exact Hc | exact Hk
    | intros B; destruct (Hp B) as [-> ->]; auto
    | intros M a Ha; apply filter_In in Ha; destruct Ha as [Ha _];
      apply (Hu M); exact Ha
    | exact He | exact Hm | exact Hf ]).
Qed.

Lemma Inv_step (e : Event) (s : State) : Inv s -> Inv (step cfg env e s).
Proof.
  intros H. unfold step. destruct (enabled e s) eqn:En; [|exact H].
  destruct e; simpl.
  - apply Inv_resume; assumption.
  - apply Inv_emitOutput; assumption.
  - apply Inv_failEncoder; assumption.
  - apply Inv_cancel; assumption.
  - apply Inv_settleMux; assumption.
Qed.

Lemma Inv_run (evs : list Event) (s : State) : Inv s -> Inv (run cfg env evs s).
Proof.
  revert s. induction evs as [|e evs IH]; intros s H; simpl.
  - exact H.
  - apply IH. apply Inv_step. exact H.
Qed.

Lemma Inv_reachable (evs : list Event) : Inv (run cfg env evs initial).
Proof. apply Inv_run. apply Inv_initial. Qed.

(** ** Which steps submit a frame *)

Lemma countEncode_cons (c : Call) (tr : list Call) :
  countEncode (c :: tr) =
  ((if isEncode c then 1 else 0) + countEncode tr)%nat.
Proof. unfold countEncode. simpl. destruct (isEncode c); reflexivity. Qed.

Lemma countEncode_afterLoop (s : State) :
  countEncode (trace (afterLoop s)) = countEncode (trace s).
Proof.
  unfold afterLoop, awaitMuxing.
  destruct (cancelled s), (encoder s && isConfigured (encoderState s));
    reflexivity.
Qed.

Lemma countEncode_renderStep (i : nat) (s : State) :
  countEncode (trace (renderStep i s)) = countEncode (trace s).
Proof. unfold renderStep. destruct (renderer s); reflexivity. Qed.

Lemma countEncode_loopTop (i : nat) (s : State) :
  countEncode (trace (loopTop env i s)) = countEncode (trace s).
Proof.
  unfold loopTop.
  destruct ((i <? totalFrames env)%nat && negb (cancelled s)).
  - destruct (needsSeek env i || (i =? 0)%nat);
      [reflexivity | apply countEncode_renderStep].
  - apply countEncode_afterLoop.
Qed.

Lemma countEncode_submitFrame (i : nat) (s : State) :
  countEncode (trace (submitFrame cfg env i s)) =
  ((if encoder s && isConfigured (encoderState s) then 1 else 0)
   + countEncode (trace s))%nat.
Proof.
  unfold submitFrame.
  destruct (encoder s && isConfigured (encoderState s)), (onProgress cfg);
    reflexivity.
Qed.

Lemma countEncode_backpressure (i : nat) (s : State) :
  countEncode (trace (backpressure cfg env i s)) =
  ((if (MAX_ENCODE_QUEUE <=? encodeQueue s)%Z && negb (cancelled s) then 0
    else if encoder s && isConfigured (encoderState s) then 1 else 0)
   + countEncode (trace s))%nat.
Proof.
  unfold backpressure.
  destruct ((MAX_ENCODE_QUEUE <=? encodeQueue s) && negb (cancelled s));
    [reflexivity|].
  rewrite countEncode_loopTop. apply countEncode_submitFrame.
Qed.

Lemma countEncode_initializeEncoder (s : State) :
  countEncode (trace (fst (initializeEncoder env s))) = countEncode (trace s).
Proof.
  unfold initializeEncoder.
  destruct (configureHardware env); [|destruct (configureSoftware env)];
    reflexivity.
Qed.

(** A step that is not the end of a backpressure check submits nothing;
    one that is submits at most one frame. *)
Lemma countEncode_step (e : Event) (s : State) :
  countEncode (trace (step cfg env e s)) = countEncode (trace s) \/
  (countEncode (trace (step cfg env e s)) = S (countEncode (trace s)) /\
   inLoop (pc s) = true /\
   (MAX_ENCODE_QUEUE <=? encodeQueue s) && negb (cancelled s) = false /\
   encoder s = true).
Proof.
  unfold step. destruct (enabled e s); [|left; reflexivity].
  destruct e as [o|c m|m| |p o]; simpl.
  - unfold resume. destruct (pc s) eqn:P.
    + left. destruct o; reflexivity.
    + left. destruct o; reflexivity.
    + left. destruct o; [|reflexivity].
      pose proof (countEncode_initializeEncoder s) as C.
      destruct (initializeEncoder env s). exact C.
    + left. destruct r, o; reflexivity.
    + left. destruct o; [|reflexivity]. unfold enterLoop.
      destruct (decoder s); [|reflexivity].
      destruct (videoElement env); [|reflexivity]. apply countEncode_loopTop.
    + left. destruct o; apply countEncode_renderStep.
    + destruct o; [|left; reflexivity]. unfold afterRender.
      destruct (renderer s); [|left; reflexivity].
      rewrite countEncode_backpressure.
      destruct ((MAX_ENCODE_QUEUE <=? encodeQueue s) && negb (cancelled s));
        [left; reflexivity|].
      destruct (encoder s); [|left; reflexivity].
      destruct (isConfigured (encoderState s)); [|left; reflexivity].
      right. auto.
    + assert (G : countEncode (trace (backpressure cfg env i s))
                  = countEncode (trace s) \/
                  countEncode (trace (backpressure cfg env i s))
                  = S (countEncode (trace s)) /\
                  true = true /\
                  (MAX_ENCODE_QUEUE <=? encodeQueue s) && negb (cancelled s)
                  = false /\ encoder s = true).
      { rewrite countEncode_backpressure.
        destruct ((MAX_ENCODE_QUEUE <=? encodeQueue s) && negb (cancelled s));
          [left; reflexivity|].
        destruct (encoder s); [|left; reflexivity].
        destruct (isConfigured (encoderState s)); [|left; reflexivity].
        right. auto. }
      destruct o; exact G.
    + left. destruct o; reflexivity.
    + left. unfold callFinalize. destruct o, (muxer s); reflexivity.
    + left. destruct o; reflexivity.
    + left. destruct o; reflexivity.
  - left. unfold emitOutput, outputCallback. simpl.
    rewrite countEncode_cons. destruct (muxer s); reflexivity.
  - left. reflexivity.
  - left. reflexivity.
  - left. unfold settleMux. destruct o; reflexivity.
Qed.

(** ** Backpressure *)

(** C1: in every run of [export()], at every point, the in-flight
    counter stays within [0, MAX_ENCODE_QUEUE]; while it is at the bound
    and the export is not cancelled, the backpressure check only yields
    again; a step submits a frame only from a state whose counter is
    below the bound, never more than one frame at a time; and a
    submission is the increment of the counter followed by the [encode]
    call. *)
Theorem encodeQueue_never_exceeds_bound (evs : list Event) :
  let s := run cfg env evs initial in
  (0 <= encodeQueue s <= MAX_ENCODE_QUEUE) /\
  (forall i, pc s = AwaitQueue i ->
             MAX_ENCODE_QUEUE <= encodeQueue s -> cancelled s = false ->
             step cfg env (Resume Ok) s = s) /\
  (forall i, pc s = AwaitRender i -> renderer s = true ->
             MAX_ENCODE_QUEUE <= encodeQueue s -> cancelled s = false ->
             step cfg env (Resume Ok) s = setPc (AwaitQueue i) s) /\
  (forall e, countEncode (trace (step cfg env e s)) <> countEncode (trace s) ->
             encodeQueue s < MAX_ENCODE_QUEUE /\
             cancelled s = false /\
             countEncode (trace (step cfg env e s)) = S (countEncode (trace s))) /\
  (forall i, encodeQueue (submit i s) = encodeQueue s + 1 /\
             trace (submit i s) = Encode i (i mod 150 =? 0)%nat :: trace s).
Proof.
  intros s. pose proof (Inv_reachable evs) as I. fold s in I.
  split; [apply (inv_bounds s I)|]. split; [|split; [|split; [|auto]]].
  - intros i P Q C. unfold step. simpl. rewrite P. simpl.
    unfold resume. rewrite P. unfold backpressure.
    apply Z.leb_le in Q. rewrite Q, C. simpl.
    destruct s; simpl in *. subst. reflexivity.
  - intros i P R Q C. unfold step. simpl. rewrite P. simpl.
    unfold resume. rewrite P. unfold afterRender. rewrite R.
    unfold backpressure.
    apply Z.leb_le in Q. rewrite Q, C. reflexivity.
  - intros e Hne. destruct (countEncode_step e s) as [E|[E [L [B En]]]];
      [contradiction|].
    assert (C : cancelled s = false).
    { destruct (cancelled s) eqn:C; [|reflexivity].
      rewrite (inv_cancel s I L C) in En. discriminate En. }
    split; [|split; assumption].
    rewrite C in B. simpl in B. rewrite andb_true_r in B.
    apply Z.leb_gt in B. exact B.
Qed.

(** ** The encoder callbacks and the counter *)

(** X13: what the two callbacks do to the counter.  The [error] callback logs
    the error and nothing else: the in-flight counter keeps its value
    and [export()] stays where it is suspended.  The [output] callback
    decrements the counter by exactly one per emitted chunk, so that
    while the encoder is configured the counter equals the number of
    submitted encodes whose chunk has not been emitted. *)
Lemma callbacks_and_counter (evs : list Event) (message : string)
    (chunk : Chunk) (meta : option Metadata) :
  let s := run cfg env evs initial in
  let se := step cfg env (EncoderError message) s in
  let so := step cfg env (Output chunk meta) s in
  encodeQueue se = encodeQueue s /\
  pc se = pc s /\
  cancelled se = cancelled s /\
  (enabled (EncoderError message) s = true ->
   trace se = ConsoleError "VideoEncoder error:" message :: trace s) /\
  (enabled (Output chunk meta) s = true ->
   encodeQueue so = encodeQueue s - 1 /\
   encoderPending so = pred (encoderPending s) /\
   pc so = pc s) /\
  (isConfigured (encoderState s) = true ->
   encodeQueue s = Z.of_nat (encoderPending s)).
Proof.
  intros s se so. subst se so. unfold step.
  split; [destruct (enabled (EncoderError message) s); reflexivity|].
  split; [destruct (enabled (EncoderError message) s); reflexivity|].
  split; [destruct (enabled (EncoderError message) s); reflexivity|].
  split; [intros ->; reflexivity|].
  split; [intros ->; simpl; auto|].
  intros C. apply (inv_configured s (Inv_reachable evs) C).
Qed.

(** X14: once the encoder has failed with the counter at the bound, nothing
    brings the counter down again: until [cancel()] is called the
    backpressure wait of lines 122-124 goes on yielding. *)
Lemma backpressure_wait_stuck (evs : list Event) (i : nat) (s : State) :
  pc s = AwaitQueue i ->
  MAX_ENCODE_QUEUE <= encodeQueue s ->
  cancelled s = false ->
  isConfigured (encoderState s) = false ->
  forallb (fun e => match e with Cancel => false | _ => true end) evs = true ->
  pc (run cfg env evs s) = AwaitQueue i /\
  encodeQueue (run cfg env evs s) = encodeQueue s.
Proof.
  revert s. induction evs as [|e evs IH]; intros s P Q C N A; simpl; [auto|].
  simpl in A. apply andb_true_iff in A. destruct A as [A1 A2].
  assert (S1 : pc (step cfg env e s) = AwaitQueue i /\
               encodeQueue (step cfg env e s) = encodeQueue s /\
               cancelled (step cfg env e s) = false /\
               isConfigured (encoderState (step cfg env e s)) = false).
  { unfold step. destruct (enabled e s) eqn:En; [|auto].
    destruct e as [o|c m|m| |p o]; simpl in *.
    - rewrite P in En. destruct o; [|discriminate En].
      unfold resume. rewrite P. unfold backpressure.
      apply Z.leb_le in Q. rewrite Q, C. simpl. auto.
    - rewrite N in En. discriminate En.
    - rewrite N in En. discriminate En.
    - discriminate A1.
    - unfold settleMux. destruct o; simpl; auto. }
  destruct S1 as [P1 [Q1 [C1 N1]]].
  destruct (IH (step cfg env e s)) as [P2 Q2]; auto.
  - rewrite Q1. exact Q.
  - rewrite P2, Q2, Q1. auto.
Qed.

(** ** Cancellation *)

Lemma quiet_step (e : Event) (s : State) :
  isResume e = false ->
  pc (step cfg env e s) = pc s /\
  (cancelled s = true -> cancelled (step cfg env e s) = true) /\
  (renderer s = false -> renderer (step cfg env e s) = false) /\
  (encoder s = false -> encoder (step cfg env e s) = false).
Proof.
  intros R. unfold step. destruct (enabled e s); [|auto].
  destruct e as [o|c m|m| |p o]; try discriminate R; simpl; auto.
  unfold settleMux. destruct o; simpl; auto.
Qed.

Lemma quiet_run (evs : list Event) (s : State) :
  forallb (fun e => negb (isResume e)) evs = true ->
  pc (run cfg env evs s) = pc s /\
  (cancelled s = true -> cancelled (run cfg env evs s) = true) /\
  (renderer s = false -> renderer (run cfg env evs s) = false) /\
  (encoder s = false -> encoder (run cfg env evs s) = false).
Proof.
  revert s. induction evs as [|e evs IH]; intros s Q; simpl; [auto|].
  simpl in Q. apply andb_true_iff in Q. destruct Q as [Q1 Q2].
  apply negb_true_iff in Q1.
  destruct (quiet_step e s Q1) as [P [C [R E]]].
  destruct (IH (step cfg env e s) Q2) as [P' [C' [R' E']]].
  rewrite P'. repeat split; auto.
Qed.

Lemma loopTop_cancelled (i : nat) (s : State) :
  cancelled s = true -> pc (loopTop env i s) = Returned (Failure cancelMessage).
Proof.
  intros C. unfold loopTop, afterLoop. rewrite C.
  rewrite andb_false_r. reflexivity.
Qed.

Lemma cancelled_submitFrame (i : nat) (s : State) :
  cancelled (submitFrame cfg env i s) = cancelled s.
Proof.
  unfold submitFrame.
  destruct (encoder s && isConfigured (encoderState s)), (onProgress cfg);
    reflexivity.
Qed.

Lemma backpressure_cancelled (i : nat) (s : State) :
  cancelled s = true ->
  pc (backpressure cfg env i s) = Returned (Failure cancelMessage).
Proof.
  intros C. unfold backpressure. rewrite C, andb_false_r.
  apply loopTop_cancelled. rewrite cancelled_submitFrame. exact C.
Qed.

Lemma quiet_run_encodes_nothing (evs : list Event) (s : State) :
  forallb (fun e => negb (isResume e)) evs = true ->
  encoder s = false ->
  countEncode (trace (run cfg env evs s)) = countEncode (trace s).
Proof.
  revert s. induction evs as [|e evs IH]; intros s Q E; simpl; [reflexivity|].
  simpl in Q. apply andb_true_iff in Q. destruct Q as [Q1 Q2].
  apply negb_true_iff in Q1.
  destruct (quiet_step e s Q1) as [_ [_ [_ E']]].
  rewrite (IH _ Q2 (E' E)).
  destruct (countEncode_step e s) as [X|[_ [_ [_ X]]]]; [exact X | congruence].
Qed.

(** C3 (amended): [cancel()] sets the flag and at once runs [cleanup()]:
    an encoder that is held and configured is closed and its pending
    work dropped, decoder, renderer, encoder and muxer are let go,
    [encodeQueue], [muxingPromises], [chunkCount] and the captured
    description and colour space are reset; it makes no call of its own
    and [export()] stays suspended where it was.  The flag is read by the
    loop test and by the backpressure wait, and each then ends
    [export()] with the fixed cancellation result.  When the request
    arrives during the backpressure wait, whatever else happens before
    [export()] resumes, the waiting frame is not submitted and
    [export()] returns that result. *)
Theorem cancel_releases_and_ends_wait (s : State) (i : nat)
    (evs : list Event) (o : Outcome) :
  let s1 := step cfg env Cancel s in
  let s2 := run cfg env evs s1 in
  let s3 := step cfg env (Resume o) s2 in
  (cancelled s1 = true /\ decoder s1 = false /\ renderer s1 = false /\
   encoder s1 = false /\ muxer s1 = false /\ encodeQueue s1 = 0 /\
   muxingPromises s1 = [] /\ chunkCount s1 = 0%nat /\
   videoDescription s1 = None /\ videoColorSpace s1 = None /\
   (encoder s = true -> isConfigured (encoderState s) = true ->
    encoderState s1 = Closed /\ encoderPending s1 = 0%nat) /\
   (encoder s = false \/ isConfigured (encoderState s) = false ->
    encoderState s1 = encoderState s /\
    encoderPending s1 = encoderPending s) /\
   pc s1 = pc s /\ trace s1 = trace s) /\
  (forall j s', cancelled s' = true ->
                pc (loopTop env j s') = Returned (Failure cancelMessage) /\
                pc (backpressure cfg env j s') = Returned (Failure cancelMessage)) /\
  (pc s = AwaitQueue i ->
   forallb (fun e => negb (isResume e)) evs = true ->
   enabled (Resume o) s2 = true ->
   pc s2 = AwaitQueue i /\
   pc s3 = Returned (Failure cancelMessage) /\
   countEncode (trace s3) = countEncode (trace s)).
Proof.
  intros s1 s2 s3.
  assert (A : cancelled s1 = true /\ renderer s1 = false /\ encoder s1 = false
              /\ pc s1 = pc s /\ trace s1 = trace s).
  { subst s1. unfold step. simpl. repeat split. }
  destruct A as [A1 [A3 [A4 [A7 A8]]]].
  split; [|split].
  - subst s1. unfold step. simpl.
    split; [reflexivity|]. split; [reflexivity|]. split; [reflexivity|].
    split; [reflexivity|]. split; [reflexivity|]. split; [reflexivity|].
    split; [reflexivity|]. split; [reflexivity|]. split; [reflexivity|].
    split; [reflexivity|]. split; [|split; [|split; reflexivity]].
    + intros -> ->. simpl. split; reflexivity.
    + intros [-> | ->]; simpl; [|rewrite andb_false_r]; split; reflexivity.
  - intros j s' Cs. split;
      [apply loopTop_cancelled | apply backpressure_cancelled]; exact Cs.
  - intros Pi Q En.
    destruct (quiet_run evs s1 Q) as [P [C [R E]]]. fold s2 in P, C, R, E.
    specialize (C A1). specialize (E A4).
    assert (P2 : pc s2 = AwaitQueue i) by (rewrite P, A7; exact Pi).
    split; [exact P2|]. split.
    + subst s3. unfold step. rewrite En. simpl. unfold resume. rewrite P2.
      destruct o; apply backpressure_cancelled; exact C.
    + pose proof (quiet_run_encodes_nothing evs s1 Q A4) as N. fold s2 in N.
      rewrite A8 in N. rewrite <- N. subst s3.
      destruct (countEncode_step (Resume o) s2) as [X|[_ [_ [_ X]]]];
        [exact X | congruence].
Qed.

(** ** Finalisation *)

Lemma countFinalize_renderStep (i : nat) (s : State) :
  countFinalize (trace (renderStep i s)) = countFinalize (trace s).
Proof. unfold renderStep. destruct (renderer s); reflexivity. Qed.

Lemma countFinalize_afterLoop (s : State) :
  countFinalize (trace (afterLoop s)) = countFinalize (trace s).
Proof.
  unfold afterLoop, awaitMuxing.
  destruct (cancelled s), (encoder s && isConfigured (encoderState s));
    reflexivity.
Qed.

Lemma countFinalize_loopTop (i : nat) (s : State) :
  countFinalize (trace (loopTop env i s)) = countFinalize (trace s).
Proof.
  unfold loopTop.
  destruct ((i <? totalFrames env)%nat && negb (cancelled s)).
  - destruct (needsSeek env i || (i =? 0)%nat);
      [reflexivity | apply countFinalize_renderStep].
  - apply countFinalize_afterLoop.
Qed.

Lemma countFinalize_backpressure (i : nat) (s : State) :
  countFinalize (trace (backpressure cfg env i s)) = countFinalize (trace s).
Proof.
  unfold backpressure.
  destruct ((MAX_ENCODE_QUEUE <=? encodeQueue s) && negb (cancelled s));
    [reflexivity|].
  rewrite countFinalize_loopTop. unfold submitFrame.
  destruct (encoder s && isConfigured (encoderState s)), (onProgress cfg);
    reflexivity.
Qed.

(** Only the step that leaves [Promise.all] with a muxer at hand calls
    [finalize()]. *)
Lemma countFinalize_step (e : Event) (s : State) :
  countFinalize (trace (step cfg env e s)) = countFinalize (trace s) \/
  (exists snapshot,
     pc s = AwaitMuxing snapshot /\ allSettled snapshot s = true /\
     muxer s = true /\ trace (step cfg env e s) = Finalize :: trace s).
Proof.
  unfold step. destruct (enabled e s) eqn:En; [|left; reflexivity].
  destruct e as [o|c m|m| |p o]; simpl.
  - unfold resume. destruct (pc s) eqn:P.
    + left. destruct o; reflexivity.
    + left. destruct o; reflexivity.
    + left. destruct o; [|reflexivity]. unfold initializeEncoder.
      destruct (configureHardware env); [|destruct (configureSoftware env)];
        reflexivity.
    + left. destruct r, o; reflexivity.
    + left. destruct o; [|reflexivity]. unfold enterLoop.
      destruct (decoder s); [|reflexivity].
      destruct (videoElement env); [|reflexivity]. apply countFinalize_loopTop.
    + left. destruct o; apply countFinalize_renderStep.
    + left. destruct o; [|reflexivity]. unfold afterRender.
      destruct (renderer s); [|reflexivity]. apply countFinalize_backpressure.
    + left. destruct o; apply countFinalize_backpressure.
    + left. destruct o; reflexivity.
    + unfold enabled in En. rewrite P in En.
      destruct o; [|discriminate En].
      unfold callFinalize. destruct (muxer s) eqn:M; [|left; reflexivity].
      right. exists snapshot. auto.
    + left. destruct o; reflexivity.
    + left. destruct o; reflexivity.
  - left. unfold emitOutput, outputCallback. simpl.
    rewrite countFinalize_cons. destruct (muxer s); reflexivity.
  - left. reflexivity.
  - left. reflexivity.
  - left. unfold settleMux. destruct o; reflexivity.
Qed.


(** ** Frames dropped at submission *)

(** C10: when, at the submission point of iteration [i], the encoder is
    null or not configured, nothing is submitted: no [encode] call is
    made, the in-flight counter and the encoder's pending work keep
    their values, the only call made is the progress report for frame
    [i + 1] (when a progress callback is configured), no exception is
    raised (once the backpressure wait is over the iteration goes on to
    the next loop test) and the run can end in success with fewer
    encoded frames than [totalFrames]. *)
Theorem unconfigured_encoder_drops_frame (i : nat) (s : State) :
  encoder s = false \/ isConfigured (encoderState s) = false ->
  let s' := submitFrame cfg env i s in
  encodeQueue s' = encodeQueue s /\
  encoderPending s' = encoderPending s /\
  countEncode (trace s') = countEncode (trace s) /\
  trace s' = ((if onProgress cfg
               then [Progress (S i) (totalFrames env)] else []) ++ trace s)%list /\
  pc s' = pc s /\
  ((MAX_ENCODE_QUEUE <=? encodeQueue s) && negb (cancelled s) = false ->
   backpressure cfg env i s = loopTop env (S i) s') /\
  (exists cfg' env' evs,
     pc (Exporter.run cfg' env' evs initial) = Returned Success /\
     (countEncode (trace (Exporter.run cfg' env' evs initial))
      < totalFrames env')%nat).
Proof.
  intros H s'.
  assert (E : encoder s && isConfigured (encoderState s) = false).
  { destruct H as [-> | ->]; [reflexivity | apply andb_false_r]. }
  subst s'. unfold submitFrame. rewrite E.
  repeat split.
  - destruct (onProgress cfg); reflexivity.
  - destruct (onProgress cfg); reflexivity.
  - destruct (onProgress cfg); reflexivity.
  - destruct (onProgress cfg); reflexivity.
  - destruct (onProgress cfg); reflexivity.
  - intros B. unfold backpressure, submitFrame. rewrite B, E. reflexivity.
  - exists {| codec := None; cfgWidth := 640; cfgHeight := 360;
              onProgress := true |}.
    exists {| totalFrames := 2; needsSeek := fun _ => true;
              configureHardware := Ok; configureSoftware := Ok;
              videoElement := true |}.
    exists [Resume Ok; Resume Ok; Resume Ok; Resume Ok;
            Resume Ok; Resume Ok; EncoderError "boom";
            Resume Ok; Resume Ok; Resume Ok; Resume Ok].
    vm_compute. split; [reflexivity | lia].
Qed.

(** ** Decoder configuration on the first chunk *)



End Facts.

(** ** Concrete runs *)

Lemma encodeQueue_never_exceeds_bound_witness :
  let s := run sampleConfig (samplePlatform 200)
               (boot ++ frames 120 ++ frame) initial in
  pc s = AwaitQueue 120 /\
  encodeQueue s = MAX_ENCODE_QUEUE /\
  step sampleConfig (samplePlatform 200) (Resume Ok) s = s.
Proof.
  intros s.
  destruct (encodeQueue_never_exceeds_bound sampleConfig (samplePlatform 200)
              (boot ++ frames 120 ++ frame)) as [_ [W _]].
  split; [vm_compute; reflexivity|]. split; [vm_compute; reflexivity|].
  apply (W 120%nat).
  - vm_compute. reflexivity.
  - vm_compute. discriminate.
  - vm_compute. reflexivity.
Defined.

(** C2: the code does not do what the claim says.  Frame 0 has been
    submitted and the counter is 1; the encoder fails and its [error]
    callback runs; the error is logged, [export()] is still waiting for
    frame 1, and the counter is still 1, where the [output] callback
    would have brought it to 0.  With the counter at the bound when the
    encoder fails, the backpressure wait then never ends by itself. *)
Theorem error_callback_leaves_counter :
  let s := run sampleConfig (samplePlatform 3) (boot ++ frame) initial in
  let se := step sampleConfig (samplePlatform 3) (EncoderError "boom") s in
  let so := step sampleConfig (samplePlatform 3) (Output 0%nat None) s in
  let full := run sampleConfig (samplePlatform 200)
                  (boot ++ frames 120 ++ frame ++ [EncoderError "boom"])
                  initial in
  encodeQueue s = 1 /\
  enabled (EncoderError "boom") s = true /\
  encodeQueue se = 1 /\
  encodeQueue so = 0 /\
  trace se = ConsoleError "VideoEncoder error:" "boom" :: trace s /\
  pc se = AwaitFrameReady 1 /\
  pc full = AwaitQueue 120 /\
  encodeQueue full = MAX_ENCODE_QUEUE /\
  step sampleConfig (samplePlatform 200) (Resume Ok) full = full.
Proof. vm_compute. repeat split. Qed.

Lemma callbacks_and_counter_example :
  let s := run sampleConfig (samplePlatform 3) (boot ++ frame) initial in
  trace (step sampleConfig (samplePlatform 3) (EncoderError "boom") s) =
    ConsoleError "VideoEncoder error:" "boom" :: trace s /\
  encodeQueue (step sampleConfig (samplePlatform 3) (Output 0%nat None) s) =
    encodeQueue s - 1.
Proof.
  intros s.
  destruct (callbacks_and_counter sampleConfig (samplePlatform 3)
              (boot ++ frame) "boom" 0%nat None) as [_ [_ [_ [E [O _]]]]].
  split.
  - apply E. vm_compute. reflexivity.
  - apply O. vm_compute. reflexivity.
Defined.

Lemma backpressure_wait_stuck_example :
  let full := run sampleConfig (samplePlatform 200)
                  (boot ++ frames 120 ++ frame ++ [EncoderError "boom"])
                  initial in
  pc (run sampleConfig (samplePlatform 200)
          [Resume Ok; MuxSettled 0 Ok; Output 0%nat None; Resume Ok] full)
  = AwaitQueue 120.
Proof.
  intros full.
  refine (proj1 (backpressure_wait_stuck sampleConfig (samplePlatform 200)
                   [Resume Ok; MuxSettled 0%nat Ok; Output 0%nat None; Resume Ok]
                   120%nat full _ _ _ _ _));
    vm_compute; try reflexivity; discriminate.
Defined.

(** C3, as the specification states it, fails: after one of three
    frames [export()] waits for frame 1 to be ready; [cancel()] does more
    than set the flag, it drops the encoder and the renderer; and when
    [export()] resumes, it returns the message of the TypeError raised by
    [this.renderer!.renderFrame], not the cancellation message. *)
Lemma cancel_during_seek_returns_type_error :
  let s := run sampleConfig (samplePlatform 3) (boot ++ frame) initial in
  let s' := run sampleConfig (samplePlatform 3) [Cancel; Resume Ok] s in
  pc s = AwaitFrameReady 1 /\
  encoder s = true /\ renderer s = true /\
  encoder (step sampleConfig (samplePlatform 3) Cancel s) = false /\
  renderer (step sampleConfig (samplePlatform 3) Cancel s) = false /\
  pc s' = Returned
            (Failure "Cannot read properties of null (reading 'renderFrame')") /\
  pc s' <> Returned (Failure cancelMessage).
Proof. vm_compute. repeat split. discriminate. Qed.

Lemma cancel_releases_and_ends_wait_witness :
  let s := run sampleConfig (samplePlatform 200)
               (boot ++ frames 120 ++ frame) initial in
  let s3 := run sampleConfig (samplePlatform 200)
                [Cancel; MuxSettled 0 Ok; Resume Ok] s in
  pc s = AwaitQueue 120 /\
  encoderState s = Configured /\
  encoderState (step sampleConfig (samplePlatform 200) Cancel s) = Closed /\
  pc s3 = Returned (Failure cancelMessage) /\
  countEncode (trace s3) = countEncode (trace s).
Proof.
  intros s s3.
  destruct (cancel_releases_and_ends_wait sampleConfig (samplePlatform 200)
              s 120%nat [MuxSettled 0%nat Ok] Ok)
    as [[_ [_ [_ [_ [_ [_ [_ [_ [_ [_ [K _]]]]]]]]]]] [_ W]].
  destruct W as [_ [W1 W2]]; try (vm_compute; reflexivity).
  split; [vm_compute; reflexivity|]. split; [vm_compute; reflexivity|].
  split; [apply K; vm_compute; reflexivity|].
  split; [exact W1 | exact W2].
Defined.





Lemma unconfigured_encoder_drops_frame_witness :
  let s := run sampleConfig (samplePlatform 3)
               (boot ++ frame ++ [EncoderError "boom"; Resume Ok]) initial in
  pc s = AwaitRender 1 /\
  encodeQueue (submitFrame sampleConfig (samplePlatform 3) 1 s) = encodeQueue s /\
  trace (submitFrame sampleConfig (samplePlatform 3) 1 s)
    = Progress 2 3 :: trace s.
Proof.
  intros s.
  assert (H : encoder s = false \/ isConfigured (encoderState s) = false).
  { right. vm_compute. reflexivity. }
  destruct (unconfigured_encoder_drops_frame sampleConfig (samplePlatform 3)
              1%nat s H) as [Q [_ [_ [T _]]]].
  split; [vm_compute; reflexivity|]. split; [exact Q | exact T].
Defined.

(* ================================================================== *)
(** ** More on runs: order of frames, progress, teardown *)
(* ================================================================== *)

Section RunFacts.

Variable cfg : Config.
Variable env : Platform.

Local Open Scope nat_scope.

Lemma ordered_mono (n m : nat) (tr : list Call) :
  n <= m -> ordered n tr -> ordered m tr.
Proof.
  revert n m. induction tr as [|c tr IH]; intros n m L O; simpl in *; auto.
  destruct c; eauto. destruct O as [O1 O2]. split; [lia | exact O2].
Qed.

Lemma ordered_zero_dense (tr : list Call) : ordered 0 tr -> dense 0 tr.
Proof.
  induction tr as [|c tr IH]; intros O; simpl in *; auto.
  destruct c; auto. destruct O as [O _]. lia.
Qed.

Lemma dense_countEncode (n : nat) (tr : list Call) :
  dense n tr -> countEncode tr = n.
Proof.
  revert n. induction tr as [|c tr IH]; intros n D; simpl in *.
  - symmetry. exact D.
  - rewrite countEncode_cons.
    destruct c; simpl; auto. destruct D as [-> D]. rewrite (IH _ D). reflexivity.
Qed.

Lemma countAdd_cons (c : Call) (tr : list Call) :
  countAdd (c :: tr) = (if isAddVideoChunk c then 1 else 0) + countAdd tr.
Proof. unfold countAdd. simpl. destruct (isAddVideoChunk c); reflexivity. Qed.

Ltac open_inv2 H :=
  destruct H as [Hl Ho Hg Hbf Hbal Hmx Hcl Hdr Hrel Hdm].

Ltac open_state :=
  match goal with
  | s : State |- _ =>
      destruct s as [dec ren enc mux can q mp cc vd vcs cd st pend uns np p tr]
  end;
  simpl in *.

(** What holds of a state in the middle of an iteration, [n] being the
    number of iterations completed. *)
Record Mid (n : nat) (s : State) : Prop := {
  mid_le : n <= totalFrames env;
  mid_ordered : ordered n (trace s);
  mid_progress : if onProgress cfg
                 then progressSeq (totalFrames env) n (trace s)
                 else countProgress (trace s) = 0;
  mid_balance : isConfigured (encoderState s) = true ->
                countEncode (trace s) = countAdd (trace s) + encoderPending s;
  mid_muxer : isConfigured (encoderState s) = true -> muxer s = true;
  mid_clean : encoderErrorLogged (trace s) = false -> cancelled s = false ->
              dense n (trace s);
  mid_doom : cancelled s = true ->
             decoder s = false /\ renderer s = false /\ muxer s = false /\
             isConfigured (encoderState s) = false
}.

Lemma Inv2_initial : Inv2 cfg env initial.
Proof.
  constructor; simpl; auto; try discriminate.
  - destruct (onProgress cfg); reflexivity.
Qed.

Lemma frontier_le (s : State) :
  Inv2 cfg env s -> frontier (totalFrames env) (pc s) <= totalFrames env.
Proof.
  intros H. pose proof (i2_inloop cfg env s H) as L.
  destruct (pc s); simpl in *; try lia; specialize (L eq_refl); lia.
Qed.

(** What a state keeps when [export()] leaves through the [catch]. *)
Lemma Inv2_weaken (s : State) :
  Inv2 cfg env s ->
  ordered (totalFrames env) (trace s) /\
  (if onProgress cfg
   then exists k, k <= totalFrames env /\
                  progressSeq (totalFrames env) k (trace s)
   else countProgress (trace s) = 0).
Proof.
  intros H. pose proof (frontier_le s H) as L. split.
  - apply (ordered_mono _ _ _ L). apply (i2_ordered cfg env s H).
  - pose proof (i2_progress cfg env s H) as G.
    destruct (onProgress cfg); [|exact G].
    destruct (pc s) as [ | | | | | | | | | | | [|]]; try exact G;
      (eexists; split; [|exact G]; simpl in *; lia).
Qed.

Lemma released_cleanup (s : State) :
  Inv s -> released (cleanup s).
Proof.
  intros I. unfold released. simpl. repeat split.
  destruct (encoder s) eqn:E; simpl.
  - destruct (isConfigured (encoderState s)) eqn:C; [reflexivity | exact C].
  - destruct (isConfigured (encoderState s)) eqn:C; [|reflexivity].
    destruct (inv_configured s I C). congruence.
Qed.

Lemma Inv2_returnWith (r : ExportResult) (s : State) :
  Inv s ->
  ordered (totalFrames env) (trace s) ->
  (if onProgress cfg
   then exists k, k <= totalFrames env /\
                  progressSeq (totalFrames env) k (trace s)
   else countProgress (trace s) = 0) ->
  (r = Success ->
   (onProgress cfg = true ->
    progressSeq (totalFrames env) (totalFrames env) (trace s)) /\
   (encoderErrorLogged (trace s) = false ->
    dense (totalFrames env) (trace s) /\
    countAdd (trace s) = totalFrames env /\ flushDone (trace s) = true)) ->
  Inv2 cfg env (returnWith r s).
Proof.
  intros I O G S. pose proof (released_cleanup s I) as R.
  unfold released in R. simpl in R.
  destruct R as [_ [_ [_ [_ [_ [_ [_ [_ [_ R]]]]]]]]].
  constructor; simpl; auto; try discriminate.
  - destruct (onProgress cfg) eqn:P; [|exact G].
    destruct r; [apply S; reflexivity | exact G].
  - rewrite R. discriminate.
  - rewrite R. discriminate.
  - destruct r; [|auto]. apply S. reflexivity.
  - unfold released. simpl. repeat split. exact R.
Qed.

Lemma Inv2_throwError (m : string) (s : State) :
  Inv s -> Inv2 cfg env s -> Inv2 cfg env (throwError m s).
Proof.
  intros I H. destruct (Inv2_weaken s H) as [O G].
  unfold throwError. apply Inv2_returnWith.
  - apply Inv_call; [exact I | reflexivity].
  - exact O.
  - destruct (onProgress cfg); exact G.
  - discriminate.
Qed.

Lemma Inv2_throwError_mid (m : string) (n : nat) (s : State) :
  Inv s -> Mid n s -> Inv2 cfg env (throwError m s).
Proof.
  intros I M. unfold throwError. apply Inv2_returnWith.
  - apply Inv_call; [exact I | reflexivity].
  - simpl. apply (ordered_mono n); [apply (mid_le n s M) | apply (mid_ordered n s M)].
  - pose proof (mid_progress n s M) as G. pose proof (mid_le n s M).
    simpl. destruct (onProgress cfg); [|exact G]. exists n. auto.
  - discriminate.
Qed.

Lemma Mid_of_Inv2 (i : nat) (s : State) :
  Inv2 cfg env s ->
  pc s = AwaitFrameReady i \/ pc s = AwaitRender i \/ pc s = AwaitQueue i ->
  Mid i s /\ i < totalFrames env.
Proof.
  intros H P. open_inv2 H.
  assert (F : frontier (totalFrames env) (pc s) = i /\ inLoop (pc s) = true
              /\ muxerLive (pc s) = true /\ beforeLoop (pc s) = false).
  { destruct P as [-> | [-> | ->]]; repeat split. }
  destruct F as [F [L [ML BL]]]. rewrite F in *. specialize (Hl L).
  split; [|exact Hl]. constructor; auto.
  - lia.
  - destruct (onProgress cfg); [|exact Hg].
    destruct P as [P | [P | P]]; rewrite P in Hg; exact Hg.
  - intros E C. specialize (Hcl E).
    destruct P as [P | [P | P]]; rewrite P in Hcl; auto.
  - intros C. destruct (Hdm C) as [D1 D2]. destruct (D2 BL) as [D3 [D4 D5]].
    auto.
Qed.

(** A loop state made from a state in the middle of an iteration. *)
Lemma Inv2_of_Mid (i : nat) (p : PC) (s : State) :
  p = AwaitFrameReady i \/ p = AwaitRender i \/ p = AwaitQueue i ->
  Mid i s -> i < totalFrames env -> Inv2 cfg env (setPc p s).
Proof.
  intros P M L. destruct M as [Ml Mo Mg Mb Mm Mc Md].
  assert (F : frontier (totalFrames env) p = i /\ beforeLoop p = false).
  { destruct P as [-> | [-> | ->]]; split; reflexivity. }
  destruct F as [F BL].
  constructor; simpl; try rewrite F; try rewrite BL; auto; try discriminate.
  - destruct (onProgress cfg); [|exact Mg].
    destruct P as [-> | [-> | ->]]; exact Mg.
  - intros E. destruct P as [-> | [-> | ->]]; auto.
  - destruct P as [-> | [-> | ->]]; exact I.
  - destruct P as [-> | [-> | ->]]; exact I.
  - intros C. destruct (Md C) as [D1 [D2 [D3 D4]]]. auto.
Qed.

Lemma Inv2_cancel (s : State) : Inv s -> Inv2 cfg env s -> Inv2 cfg env (cancel s).
Proof.
  intros I H.
  assert (NC : isConfigured (encoderState (cancel s)) = false).
  { simpl. destruct (encoder s) eqn:E; simpl.
    - destruct (isConfigured (encoderState s)) eqn:C; [reflexivity | exact C].
    - destruct (isConfigured (encoderState s)) eqn:C; [|reflexivity].
      destruct (inv_configured s I C). congruence. }
  open_inv2 H. simpl in NC.
  constructor; simpl; auto; try (rewrite NC; discriminate).
  - intros E. specialize (Hcl E). destruct (pc s); auto; discriminate.
  - destruct (pc s); auto; rewrite NC; discriminate.
  - destruct (pc s); auto. unfold released. simpl. repeat split. exact NC.
Qed.

Lemma not_configured_logged (s : State) :
  Inv s -> encoderLive (pc s) = true -> cancelled s = false ->
  encoderErrorLogged (trace s) = false ->
  encoder s = true /\ isConfigured (encoderState s) = true.
Proof.
  intros I L C E.
  destruct (isConfigured (encoderState s)) eqn:K.
  - destruct (inv_configured s I K). auto.
  - rewrite (inv_error s I L C K) in E. discriminate E.
Qed.

Lemma Inv2_afterLoop (n : nat) (s : State) :
  Inv s -> encoderLive (pc s) = true -> Mid n s ->
  (cancelled s = false -> n = totalFrames env) ->
  Inv2 cfg env (afterLoop s).
Proof.
  intros I L M T. unfold afterLoop. destruct (cancelled s) eqn:C.
  - destruct M as [Ml Mo Mg Mb Mm Mc Md].
    apply Inv2_returnWith; auto.
    + apply (ordered_mono n); assumption.
    + destruct (onProgress cfg); [|exact Mg]. exists n. auto.
    + discriminate.
  - specialize (T eq_refl). subst n.
    destruct M as [Ml Mo Mg Mb Mm Mc Md].
    destruct (encoder s && isConfigured (encoderState s)) eqn:E.
    + constructor; simpl; auto; try discriminate;
        try solve [ destruct (onProgress cfg); exact Mg
                  | rewrite C; discriminate ].
    + unfold awaitMuxing.
      assert (N : isConfigured (encoderState s) = false).
      { destruct (isConfigured (encoderState s)) eqn:K; [|reflexivity].
        destruct (inv_configured s I K) as [E1 _]. rewrite E1 in E.
        discriminate E. }
      constructor; simpl; auto; try discriminate;
        try solve [ destruct (onProgress cfg); exact Mg
                  | intros El; rewrite (inv_error s I L C N) in El;
                    discriminate El
                  | rewrite N; discriminate
                  | rewrite C; discriminate ].
Qed.

Lemma Inv2_renderStep (i : nat) (s : State) :
  Inv s -> Mid i s -> i < totalFrames env -> Inv2 cfg env (renderStep i s).
Proof.
  intros I M L. unfold renderStep. destruct (renderer s).
  - apply (Inv2_of_Mid i); auto.
  - apply (Inv2_throwError_mid _ i); assumption.
Qed.

Lemma Inv2_loopTop (i : nat) (s : State) :
  Inv s -> encoderLive (pc s) = true -> Mid i s -> Inv2 cfg env (loopTop env i s).
Proof.
  intros I L M. unfold loopTop.
  destruct ((i <? totalFrames env) && negb (cancelled s)) eqn:E.
  - apply andb_true_iff in E. destruct E as [E1 E2]. apply Nat.ltb_lt in E1.
    destruct (needsSeek env i || (i =? 0)).
    + apply (Inv2_of_Mid i); auto.
    + apply Inv2_renderStep; assumption.
  - apply (Inv2_afterLoop i); auto.
    intros C. rewrite C in E. rewrite andb_true_r in E.
    apply Nat.ltb_ge in E. pose proof (mid_le i s M). lia.
Qed.

Lemma encoderLive_submitFrame (i : nat) (s : State) :
  encoderLive (pc (submitFrame cfg env i s)) = encoderLive (pc s).
Proof. rewrite pc_submitFrame. reflexivity. Qed.

Lemma Mid_submitFrame (i : nat) (s : State) :
  Inv s -> inLoop (pc s) = true -> Mid i s -> i < totalFrames env ->
  Mid (S i) (submitFrame cfg env i s).
Proof.
  intros I L M T.
  assert (EL : encoderLive (pc s) = true).
  { destruct (pc s); try discriminate L; reflexivity. }
  destruct M as [Ml Mo Mg Mb Mm Mc Md].
  assert (O' : ordered (S i) (trace s)).
  { apply (ordered_mono i); [lia | exact Mo]. }
  unfold submitFrame.
  destruct (encoder s && isConfigured (encoderState s)) eqn:E;
    destruct (onProgress cfg) eqn:P;
    constructor; simpl; try rewrite P; simpl; auto;
    try solve
      [ lia
      | repeat split; auto; lia
      | intros K; rewrite !countEncode_cons, !countAdd_cons; simpl;
        rewrite (Mb K); lia
      | intros El C;
        destruct (not_configured_logged s I EL C El) as [A B];
        rewrite A, B in E; discriminate E ].
Qed.

Lemma Inv2_setPc_queue (i : nat) (s : State) :
  Inv2 cfg env s -> pc s = AwaitRender i \/ pc s = AwaitQueue i ->
  Inv2 cfg env (setPc (AwaitQueue i) s).
Proof.
  intros H P.
  destruct (Mid_of_Inv2 i s H) as [M L]; [tauto|].
  apply (Inv2_of_Mid i); auto.
Qed.

Lemma Inv2_backpressure (i : nat) (s : State) :
  Inv s -> Inv2 cfg env s ->
  pc s = AwaitRender i \/ pc s = AwaitQueue i ->
  Inv2 cfg env (backpressure cfg env i s).
Proof.
  intros I H P. unfold backpressure.
  destruct ((MAX_ENCODE_QUEUE <=? encodeQueue s)%Z && negb (cancelled s)) eqn:E.
  - apply Inv2_setPc_queue; assumption.
  - destruct (Mid_of_Inv2 i s H) as [M L]; [tauto|].
    assert (IL : inLoop (pc s) = true).
    { destruct P as [-> | ->]; reflexivity. }
    assert (B : (encodeQueue s < MAX_ENCODE_QUEUE)%Z \/ cancelled s = true).
    { apply andb_false_iff in E. destruct E as [E|E].
      - left. apply Z.leb_gt in E. exact E.
      - right. apply negb_false_iff in E. exact E. }
    apply Inv2_loopTop.
    + apply Inv_submitFrame; assumption.
    + rewrite encoderLive_submitFrame. destruct P as [-> | ->]; reflexivity.
    + apply Mid_submitFrame; assumption.
Qed.

Lemma Inv2_afterRender (i : nat) (s : State) :
  Inv s -> Inv2 cfg env s -> pc s = AwaitRender i ->
  Inv2 cfg env (afterRender cfg env i s).
Proof.
  intros I H P. unfold afterRender. destruct (renderer s).
  - apply Inv2_backpressure; auto.
  - apply Inv2_throwError; assumption.
Qed.

Lemma Inv2_enterLoop (s : State) :
  Inv s -> Inv2 cfg env s -> pc s = AwaitMuxerInit ->
  Inv2 cfg env (enterLoop env s).
Proof.
  intros I H P. unfold enterLoop.
  destruct (decoder s) eqn:D; [|apply Inv2_throwError; assumption].
  destruct (videoElement env); [|apply Inv2_throwError; assumption].
  apply Inv2_loopTop; [exact I | rewrite P; reflexivity |].
  open_inv2 H. rewrite P in *. simpl in *.
  assert (C : cancelled s = false).
  { destruct (cancelled s) eqn:C; [|reflexivity].
    destruct (Hdm eq_refl) as [D' _]. congruence. }
  constructor; auto.
  - lia.
  - intros _ _. apply ordered_zero_dense. exact Ho.
  - rewrite C. discriminate.
Qed.

Lemma Inv2_initializeEncoder (s : State) :
  Inv s -> Inv2 cfg env s -> pc s = AwaitRendererInit ->
  Inv2 cfg env (setPc (AwaitEncoderInit (snd (initializeEncoder env s)))
                      (fst (initializeEncoder env s))).
Proof.
  intros I H P. open_inv2 H. rewrite P in *. simpl in *.
  assert (E0 : countEncode (trace s) = 0).
  { apply dense_countEncode. apply ordered_zero_dense. exact Ho. }
  specialize (Hbf eq_refl).
  unfold initializeEncoder.
  destruct (configureHardware env); [|destruct (configureSoftware env)];
    constructor; simpl; auto; try discriminate;
    try solve [ destruct (onProgress cfg); exact Hg
              | intros _; rewrite E0, Hbf; reflexivity
              | intros C; destruct (Hdm C) as [D _]; split;
                [exact D | discriminate]
              | intros _; rewrite countEncode_cons, countAdd_cons; simpl;
                rewrite E0, Hbf; reflexivity ].
Qed.

Lemma Inv2_callFinalize (s : State) (snapshot : list nat) :
  Inv s -> Inv2 cfg env s -> pc s = AwaitMuxing snapshot ->
  Inv2 cfg env (callFinalize s).
Proof.
  intros I H P. unfold callFinalize.
  destruct (muxer s) eqn:M; [|apply Inv2_throwError; assumption].
  open_inv2 H. rewrite P in *. simpl in *.
  constructor; simpl; auto; try discriminate;
    try solve [ destruct (onProgress cfg); exact Hg ].
Qed.

Lemma Inv2_call (c : Call) (s : State) :
  Inv2 cfg env s ->
  isEncode c = false -> isProgress c = false -> isAddVideoChunk c = false ->
  isEncoderErrorLog c = false ->
  Inv2 cfg env (call c s).
Proof.
  intros H E1 E2 E3 E4. open_inv2 H.
  assert (F : forall n, ordered n (c :: trace s) = ordered n (trace s)).
  { intros n. destruct c; try reflexivity; discriminate. }
  assert (D : forall n, dense n (c :: trace s) = dense n (trace s)).
  { intros n. destruct c; try reflexivity; discriminate. }
  assert (G : forall t k, progressSeq t k (c :: trace s)
                          = progressSeq t k (trace s)).
  { intros t k. destruct c; try reflexivity; discriminate. }
  assert (FD : flushDone (trace s) = true -> flushDone (c :: trace s) = true).
  { intros X. simpl. rewrite X. apply orb_true_r. }
  constructor; unfold call;
    cbn [pc trace cancelled encoderState encoderPending muxer decoder renderer];
    rewrite ?F, ?D, ?G, ?countEncode_cons, ?countAdd_cons, ?E1, ?E3;
    cbn [Nat.add]; auto.
  - destruct (onProgress cfg).
    + destruct (pc s) as [ | | | | | | | | | | | [|]]; rewrite ?G; auto.
      destruct Hg as [k [K1 K2]]. exists k. rewrite G. auto.
    + unfold countProgress in *. cbn [filter]. rewrite E2. exact Hg.
  - intros El. cbn [encoderErrorLogged existsb] in El. rewrite E4 in El.
    specialize (Hcl El).
    destruct (pc s) as [ | | | | | | | | | | | [|]];
      rewrite ?D, ?countAdd_cons, ?E3; cbn [Nat.add]; auto;
      destruct Hcl as [A [B C]]; auto.
Qed.

Lemma Inv2_resume (o : Outcome) (s : State) :
  Inv s -> Inv2 cfg env s -> enabled (Resume o) s = true ->
  Inv2 cfg env (resume cfg env o s).
Proof.
  intros I H En. unfold resume. destruct (pc s) eqn:P.
  - destruct o; exact H.
  - destruct o; [|apply Inv2_throwError; assumption].
    open_inv2 H. rewrite P in *. simpl in *.
    constructor; simpl; auto; try discriminate;
      try solve [ destruct (onProgress cfg); exact Hg
                | intros C; destruct (Hdm C) as [D _]; split;
                  [exact D | discriminate] ].
  - destruct o; [|apply Inv2_throwError; assumption].
    pose proof (Inv2_initializeEncoder s I H P) as J.
    destruct (initializeEncoder env s) as [s1 r]. exact J.
  - destruct r.
    + assert (J : Inv2 cfg env (setPc AwaitMuxerInit (setMuxer true s))).
      { open_inv2 H. rewrite P in *. simpl in *.
        constructor; simpl; auto; try discriminate;
          try solve [ destruct (onProgress cfg); exact Hg
                    | intros C; destruct (Hdm C) as [D _]; split;
                      [exact D | discriminate] ]. }
      destruct o; exact J.
    + destruct o; apply Inv2_throwError; assumption.
  - destruct o; [|apply Inv2_throwError; assumption].
    apply Inv2_enterLoop; assumption.
  - destruct (Mid_of_Inv2 i s H) as [M L]; [rewrite P; tauto|].
    destruct o; apply Inv2_renderStep; assumption.
  - destruct o; [|apply Inv2_throwError; assumption].
    apply Inv2_afterRender; assumption.
  - destruct o; apply Inv2_backpressure; auto.
  - destruct o; [|apply Inv2_throwError; assumption].
    unfold enabled in En. rewrite P in En.
    apply andb_true_iff in En. destruct En as [E1 E2].
    apply Nat.eqb_eq in E2.
    unfold awaitMuxing. open_inv2 H. rewrite P in *. simpl in *.
    constructor; simpl; auto; try discriminate;
      try solve [ destruct (onProgress cfg); exact Hg ].
    intros El. specialize (Hcl El). split; [exact Hcl|]. split; [|reflexivity].
    pose proof (dense_countEncode _ _ Hcl) as X. pose proof (Hbal E1) as Y.
    change (countAdd (trace s) = totalFrames env). lia.
  - destruct o; eapply Inv2_callFinalize; eassumption.
  - destruct o; [|apply Inv2_throwError; assumption].
    open_inv2 H. rewrite P in *. simpl in *.
    destruct (Inv2_weaken s) as [O G].
    { constructor; rewrite ?P; simpl; auto; discriminate. }
    apply Inv2_returnWith; auto.
    intros _. split; [|exact Hcl]. intros Pr. rewrite Pr in Hg. exact Hg.
  - destruct o; exact H.
Qed.

Lemma Inv2_emitOutput (c : Chunk) (m : option Metadata) (s : State) :
  Inv s -> Inv2 cfg env s -> enabled (Output c m) s = true ->
  Inv2 cfg env (emitOutput cfg c m s).
Proof.
  intros I H En. unfold enabled in En.
  apply andb_true_iff in En. destruct En as [E1 E2].
  apply negb_true_iff in E2. apply Nat.eqb_neq in E2.
  assert (B : beforeLoop (pc s) = false).
  { destruct (beforeLoop (pc s)) eqn:B; [|reflexivity].
    destruct (inv_before s I B). lia. }
  assert (ML : muxerLive (pc s) = true).
  { destruct (pc s); try discriminate B; reflexivity. }
  open_inv2 H. pose proof (Hmx E1 ML) as M.
  assert (ND : match pc s with
               | AwaitMuxing _ | AwaitFinalize => False
               | _ => True
               end).
  { destruct (pc s); auto; specialize (Hdr E1); lia. }
  assert (NR : match pc s with Returned _ => False | _ => True end).
  { destruct (pc s); auto.
    destruct Hrel as [_ [_ [_ [_ [_ [_ [_ [_ [_ R]]]]]]]]]. congruence. }
  unfold emitOutput, outputCallback.
  constructor;
    cbn [pc trace cancelled encoderState encoderPending muxer decoder renderer];
    rewrite ?M; auto;
    try solve
      [ destruct (onProgress cfg); [|exact Hg];
        destruct (pc s) as [ | | | | | | | | | | | [|]]; exact Hg
      | rewrite B; discriminate
      | intros _; rewrite countEncode_cons, countAdd_cons; simpl;
        rewrite (Hbal E1); lia
      | intros El; simpl in El; specialize (Hcl El);
        destruct (pc s) as [ | | | | | | | | | | | [|]]; auto; contradiction
      | destruct (pc s); auto; contradiction
      | intros C; destruct (Hdm C) as [_ D2]; destruct (D2 B) as [_ [D4 _]];
        congruence ].
Qed.

Lemma Inv2_failEncoder (m : string) (s : State) :
  Inv2 cfg env s -> Inv2 cfg env (failEncoder m s).
Proof.
  intros H. open_inv2 H.
  constructor; simpl; auto; try discriminate;
    try solve
      [ destruct (onProgress cfg); [|exact Hg];
        destruct (pc s) as [ | | | | | | | | | | | [|]]; exact Hg
      | destruct (pc s); auto; discriminate
      | destruct (pc s); auto; unfold released in *; simpl; intuition auto
      | intros C; destruct (Hdm C) as [D1 D2]; split; [exact D1|];
        intros B; destruct (D2 B) as [D3 [D4 D5]]; auto ].
Qed.

Lemma Inv2_settleMux (promise : nat) (o : Outcome) (s : State) :
  Inv2 cfg env s -> Inv2 cfg env (settleMux promise o s).
Proof.
  intros H. unfold settleMux.
  assert (J : Inv2 cfg env
    {| decoder := decoder s; renderer := renderer s; encoder := encoder s;
       muxer := muxer s; cancelled := cancelled s;
       encodeQueue := encodeQueue s;
       muxingPromises := muxingPromises s; chunkCount := chunkCount s;
       videoDescription := videoDescription s;
       videoColorSpace := videoColorSpace s;
       closureDescription := closureDescription s;
       encoderState := encoderState s;
       encoderPending := encoderPending s;
       unsettled := filter (fun q => negb (Nat.eqb promise q)) (unsettled s);
       nextPromise := nextPromise s;
       pc := pc s; trace := trace s |}).
  { open_inv2 H. constructor; simpl; auto. }
  destruct o; [exact J|]. apply Inv2_call; auto.
Qed.

Lemma Inv2_step (e : Event) (s : State) :
  Inv s -> Inv2 cfg env s -> Inv2 cfg env (step cfg env e s).
Proof.
  intros I H. unfold step. destruct (enabled e s) eqn:En; [|exact H].
  destruct e; simpl.
  - apply Inv2_resume; assumption.
  - apply Inv2_emitOutput; assumption.
  - apply Inv2_failEncoder; assumption.
  - apply Inv2_cancel; assumption.
  - apply Inv2_settleMux; assumption.
Qed.

Lemma Inv2_run (evs : list Event) (s : State) :
  Inv s -> Inv2 cfg env s -> Inv2 cfg env (run cfg env evs s).
Proof.
  revert s. induction evs as [|e evs IH]; intros s I H; simpl.
  - exact H.
  - apply IH; [apply Inv_step; exact I | apply Inv2_step; assumption].
Qed.

Lemma Inv2_reachable (evs : list Event) : Inv2 cfg env (run cfg env evs initial).
Proof. apply Inv2_run; [apply Inv_initial | apply Inv2_initial]. Qed.

(** ** What a trace looks like *)

Lemma sorted_snoc (l : list nat) (a : nat) :
  StronglySorted lt l -> Forall (fun b => b < a) l ->
  StronglySorted lt (l ++ [a]).
Proof.
  induction l as [|b l IH]; intros S F; simpl.
  - constructor; constructor.
  - apply StronglySorted_inv in S. destruct S as [S1 S2].
    inversion F; subst. constructor.
    + apply IH; assumption.
    + apply Forall_app. split; [exact S2 | constructor; [assumption | constructor]].
Qed.

Lemma ordered_frames (n : nat) (tr : list Call) :
  ordered n tr ->
  Forall (fun f => fst f < n /\ f = keyFrameOf (fst f)) (encodedFrames tr) /\
  StronglySorted lt (map fst (encodedFrames tr)) /\
  countEncode tr <= n.
Proof.
  revert n. induction tr as [|c tr IH]; intros n O.
  - simpl. repeat split; [constructor | constructor | unfold countEncode; simpl; lia].
  - rewrite countEncode_cons.
    destruct c; try (apply IH; exact O).
    destruct O as [O1 [O2 O3]]. destruct (IH _ O3) as [F [S C]].
    cbn [encodedFrames isEncode]. split; [|split].
    + apply Forall_app. split.
      * eapply Forall_impl; [|exact F]. intros [a b] [A1 A2]. simpl in *.
        split; [lia | exact A2].
      * constructor; [|constructor]. simpl. split; [exact O1|].
        unfold keyFrameOf. simpl. rewrite O2. reflexivity.
    + rewrite map_app. apply sorted_snoc; [exact S|].
      rewrite Forall_map. eapply Forall_impl; [|exact F].
      intros [a b] [A1 _]. exact A1.
    + lia.
Qed.

Lemma dense_frames (n m : nat) (tr : list Call) :
  dense n tr -> ordered m tr ->
  encodedFrames tr = map keyFrameOf (seq 0 n).
Proof.
  revert n m. induction tr as [|c tr IH]; intros n m D O.
  - simpl in D. subst. reflexivity.
  - destruct c; try (apply (IH n m); assumption).
    destruct D as [-> D]. destruct O as [_ [O2 O3]].
    cbn [encodedFrames]. rewrite (IH _ _ D O3).
    rewrite seq_S, map_app. simpl. unfold keyFrameOf at 3. rewrite O2.
    reflexivity.
Qed.

Lemma progress_reports (total k : nat) (tr : list Call) :
  progressSeq total k tr ->
  progressReports tr = map (fun c => (c, total)) (seq 1 k).
Proof.
  revert k. induction tr as [|c tr IH]; intros k P.
  - simpl in P. subst. reflexivity.
  - destruct c; try (apply IH; exact P).
    destruct P as [-> [-> [K P]]]. cbn [progressReports].
    rewrite (IH _ P). destruct k as [|k]; [lia|].
    simpl pred. rewrite (seq_S k 1), map_app. reflexivity.
Qed.

Lemma no_progress_reports (tr : list Call) :
  countProgress tr = 0 -> progressReports tr = [].
Proof.
  induction tr as [|c tr IH]; intros P; [reflexivity|].
  unfold countProgress in *. simpl in P.
  destruct c; simpl in *; try (apply IH; exact P). discriminate P.
Qed.

(** X7: frames are submitted in order.  In every run the frames
    passed to [encode], in the order of the calls, have strictly
    increasing indices below [totalFrames]; each carries the key-frame
    flag [i % 150 === 0]; and no more than [totalFrames] frames are ever
    submitted. *)
Theorem frames_encoded_in_order (evs : list Event) :
  let s := run cfg env evs initial in
  Forall (fun f => fst f < totalFrames env /\ f = keyFrameOf (fst f))
         (encodedFrames (trace s)) /\
  StronglySorted lt (map fst (encodedFrames (trace s))) /\
  countEncode (trace s) <= totalFrames env.
Proof.
  intros s. pose proof (Inv2_reachable evs) as H. fold s in H.
  apply ordered_frames. apply (Inv2_weaken s H).
Qed.

(** X8: progress reports.  Without a progress callback nothing is
    reported.  With one, the reports of a run are exactly
    [(1, total), (2, total), ..., (k, total)] for some [k <= total], in
    this order; [k] is the number of the iteration [export()] is in
    while it is inside the loop, and it is [total] when [export()]
    returns success. *)
Theorem progress_reported_in_sequence (evs : list Event) :
  let s := run cfg env evs initial in
  (onProgress cfg = false -> progressReports (trace s) = []) /\
  (onProgress cfg = true ->
   exists k, k <= totalFrames env /\
     progressReports (trace s)
     = map (fun c => (c, totalFrames env)) (seq 1 k) /\
     (inLoop (pc s) = true -> k = frontier (totalFrames env) (pc s)) /\
     (pc s = Returned Success -> k = totalFrames env)).
Proof.
  intros s. pose proof (Inv2_reachable evs) as H. fold s in H.
  pose proof (i2_progress cfg env s H) as G.
  pose proof (frontier_le s H) as L.
  split; intros P; rewrite P in G.
  - apply no_progress_reports. exact G.
  - destruct (pc s) as [ | | | | | | | | | | | [|]] eqn:E; simpl in *;
      try (eexists; split; [|split; [apply progress_reports; exact G|
             split; [try discriminate; reflexivity | try discriminate; reflexivity]]];
           lia).
    destruct G as [k [K G]]. exists k. split; [exact K|].
    split; [apply progress_reports; exact G|]. split; discriminate.
Qed.

(** X9: a clean success is complete.  When [export()] returns success
    and the encoder never reported an error, the frames passed to
    [encode] were exactly [0 .. totalFrames - 1] in this order with
    their key-frame flags, as many chunks were handed to the muxer, the
    flush had completed, and [finalize()] was called once. *)
Theorem clean_success_is_complete (evs : list Event) :
  pc (run cfg env evs initial) = Returned Success ->
  encoderErrorLogged (trace (run cfg env evs initial)) = false ->
  let s := run cfg env evs initial in
  encodedFrames (trace s) = map keyFrameOf (seq 0 (totalFrames env)) /\
  countAdd (trace s) = totalFrames env /\
  flushDone (trace s) = true /\
  countFinalize (trace s) = 1.
Proof.
  intros P E s. pose proof (Inv2_reachable evs) as H. fold s in H, P, E.
  pose proof (i2_clean cfg env s H E) as C. rewrite P in C.
  destruct C as [D [A F]].
  destruct (Inv2_weaken s H) as [O _].
  split; [apply (dense_frames _ _ _ D O)|]. split; [exact A|]. split; [exact F|].
  pose proof (inv_finalize s (Inv_reachable cfg env evs)) as X.
  rewrite P in X. exact X.
Qed.

(** X10: teardown.  In every run, once [export()] has returned, with
    whatever result and whatever happens afterwards, the exporter holds
    no decoder, renderer, encoder or muxer, its counters and captured
    metadata are reset, and the encoder is not configured. *)
Theorem returned_means_released (evs : list Event) (r : ExportResult) :
  pc (run cfg env evs initial) = Returned r ->
  released (run cfg env evs initial).
Proof.
  intros P. pose proof (i2_released cfg env _ (Inv2_reachable evs)) as R.
  rewrite P in R. exact R.
Qed.

(** ** Cancellation before finalisation *)

Lemma cancelled_resume (o : Outcome) (s : State) :
  cancelled (resume cfg env o s) = cancelled s.
Proof.
  assert (R : forall i x, cancelled (renderStep i x) = cancelled x).
  { intros i x. unfold renderStep. destruct (renderer x); reflexivity. }
  assert (A : forall x, cancelled (afterLoop x) = cancelled x).
  { intros x. unfold afterLoop, awaitMuxing.
    destruct (cancelled x) eqn:C; simpl; auto.
    destruct (encoder x && isConfigured (encoderState x)); simpl; auto. }
  assert (T : forall i x, cancelled (loopTop env i x) = cancelled x).
  { intros i x. unfold loopTop.
    destruct ((i <? totalFrames env) && negb (cancelled x)); [|apply A].
    destruct (needsSeek env i || (i =? 0)); [reflexivity | apply R]. }
  assert (B : forall i x, cancelled (backpressure cfg env i x) = cancelled x).
  { intros i x. unfold backpressure.
    destruct ((MAX_ENCODE_QUEUE <=? encodeQueue x)%Z && negb (cancelled x));
      [reflexivity|].
    rewrite T. apply cancelled_submitFrame. }
  unfold resume. destruct (pc s); destruct o; try reflexivity; auto.
  - unfold initializeEncoder.
    destruct (configureHardware env); [|destruct (configureSoftware env)];
      reflexivity.
  - destruct r; reflexivity.
  - destruct r; reflexivity.
  - unfold enterLoop. destruct (decoder s); [|reflexivity].
    destruct (videoElement env); [apply T | reflexivity].
  - unfold afterRender. destruct (renderer s); [apply B | reflexivity].
  - unfold callFinalize. destruct (muxer s); reflexivity.
  - unfold callFinalize. destruct (muxer s); reflexivity.
Qed.

Lemma doomed_step (e : Event) (s : State) :
  Inv s -> Inv2 cfg env s ->
  cancelled s = true -> finalizing (pc s) = false ->
  cancelled (step cfg env e s) = true /\
  finalizing (pc (step cfg env e s)) = false.
Proof.
  intros I H C F.
  destruct (isResume e) eqn:R.
  - destruct e as [o| | | |]; try discriminate R.
    unfold step. destruct (enabled (Resume o) s) eqn:En; [|auto].
    cbn [fire]. split; [rewrite cancelled_resume; exact C|].
    destruct (i2_doom cfg env s H C) as [D1 D2].
    unfold resume. unfold enabled in En.
    destruct (pc s) eqn:P; try discriminate F.
    + discriminate En.
    + destruct o; reflexivity.
    + destruct o; [|reflexivity].
      destruct (initializeEncoder env s) as [s1 r]. reflexivity.
    + destruct r, o; reflexivity.
    + destruct o; [|reflexivity]. unfold enterLoop. rewrite D1. reflexivity.
    + destruct (D2 eq_refl) as [D3 _]. unfold renderStep. rewrite D3.
      destruct o; reflexivity.
    + destruct (D2 eq_refl) as [D3 _]. unfold afterRender. rewrite D3.
      destruct o; reflexivity.
    + rewrite (backpressure_cancelled cfg env i s C). destruct o; reflexivity.
    + destruct (D2 eq_refl) as [_ [_ D5]]. rewrite D5 in En.
      destruct o; [discriminate En | reflexivity].
    + destruct (D2 eq_refl) as [_ [D4 _]]. unfold callFinalize. rewrite D4.
      destruct o; reflexivity.
    + discriminate En.
  - destruct (quiet_step cfg env e s R) as [P [K _]].
    split; [apply K; exact C | rewrite P; exact F].
Qed.

(** X11: a cancellation that arrives before [finalize()] has been
    called is never followed by success.  From any reachable state whose
    flag is set while [export()] neither awaits [finalize()] nor has
    returned success, no sequence of events leads to a success
    result. *)
Theorem cancelled_before_finalize_never_succeeds (evs evs' : list Event) :
  cancelled (run cfg env evs initial) = true ->
  finalizing (pc (run cfg env evs initial)) = false ->
  finalizing (pc (run cfg env evs' (run cfg env evs initial))) = false /\
  cancelled (run cfg env evs' (run cfg env evs initial)) = true.
Proof.
  pose proof (Inv_reachable cfg env evs) as I.
  pose proof (Inv2_reachable evs) as H.
  generalize dependent (run cfg env evs initial). intros s I H.
  revert s I H. induction evs' as [|e evs' IH]; intros s I H C F; simpl.
  - auto.
  - destruct (doomed_step e s I H C F) as [C' F'].
    apply IH; auto.
    + apply Inv_step; exact I.
    + apply Inv2_step; assumption.
Qed.

(** ** When no encoder can be configured *)

(** X12: when both [configure] calls throw, [export()] cannot succeed:
    in every run it never gets past [initializeEncoder], nothing is
    encoded or finalized, and once the video has loaded and the renderer
    is initialised it returns the failure
    ["Failed to initialize video encoder: " ++ message] with the message
    of the software attempt, after a warning for the hardware attempt
    and an error for the software one. *)
Theorem no_encoder_fails_export (e1 e2 : string) (evs : list Event) :
  configureHardware env = Throw e1 ->
  configureSoftware env = Throw e2 ->
  let s := run cfg env evs initial in
  let s3 := run cfg env [Resume Ok; Resume Ok; Resume Ok] initial in
  beforeEncoder (pc s) = true /\
  countEncode (trace s) = 0 /\ countFinalize (trace s) = 0 /\
  pc s3 = Returned (Failure ("Failed to initialize video encoder: " ++ e2)) /\
  trace s3 =
    [ConsoleError "Export error:" ("Failed to initialize video encoder: " ++ e2);
     ConsoleError softwareError e2;
     ConsoleWarn hardwareWarning e1].
Proof.
  intros H1 H2 s s3.
  assert (G : forall evs x,
             beforeEncoder (pc x) = true ->
             countEncode (trace x) = 0 -> countFinalize (trace x) = 0 ->
             beforeEncoder (pc (run cfg env evs x)) = true /\
             countEncode (trace (run cfg env evs x)) = 0 /\
             countFinalize (trace (run cfg env evs x)) = 0).
  { clear s s3 evs. intros evs. induction evs as [|e evs IH]; intros x B E F.
    - simpl. auto.
    - simpl. apply IH.
      + destruct (isResume e) eqn:R.
        * destruct e as [o'| | | |]; try discriminate R.
          unfold step. destruct (enabled (Resume o') x); [|exact B].
          cbn [fire]. unfold resume.
          destruct (pc x) as [ | | | [|m] | | | | | | | | [|m]] eqn:P;
            try discriminate B.
          -- destruct o'; reflexivity.
          -- destruct o'; [|reflexivity]. unfold initializeEncoder.
             rewrite H1, H2. reflexivity.
          -- destruct o'; reflexivity.
          -- destruct o'; rewrite P; reflexivity.
        * destruct (quiet_step cfg env e x R) as [P _]. rewrite P. exact B.
      + destruct (countEncode_step cfg env e x) as [X|[X [L _]]];
          [rewrite X; exact E|].
        destruct (pc x) as [ | | | [|m] | | | | | | | | [|m]];
          discriminate.
      + destruct (countFinalize_step cfg env e x) as [X|[sn [P _]]];
          [rewrite X; exact F|].
        rewrite P in B. discriminate B. }
  destruct (G evs initial) as [A [B C]]; try reflexivity.
  split; [exact A|]. split; [exact B|]. split; [exact C|].
  subst s3. unfold run, step. cbn. unfold initializeEncoder.
  rewrite H1, H2. cbn. split; reflexivity.
Qed.

(** ** The output callback over a sequence of chunks *)

Lemma emitAll_cons (c : Chunk) (m : option Metadata)
    (outs : list (Chunk * option Metadata)) (s : State) :
  emitAll cfg ((c, m) :: outs) s = emitAll cfg outs (outputCallback cfg c m s).
Proof. reflexivity. Qed.

Lemma emitAll_captures (outs : list (Chunk * option Metadata)) (s : State) :
  videoDescription s = closureDescription s ->
  let s' := emitAll cfg outs s in
  closureDescription s' =
    match closureDescription s with
    | Some d => Some d
    | None => firstDescription outs
    end /\
  videoDescription s' = closureDescription s' /\
  videoColorSpace s' =
    match videoColorSpace s with
    | Some c => Some c
    | None => firstColorSpace outs
    end /\
  chunkCount s' = chunkCount s + List.length outs /\
  encodeQueue s' = (encodeQueue s - Z.of_nat (List.length outs))%Z /\
  muxingPromises s' =
    (muxingPromises s ++ seq (nextPromise s) (List.length outs))%list.
Proof.
  revert s. induction outs as [|[c m] outs IH]; intros s E; cbv zeta.
  - simpl. rewrite E.
    destruct (closureDescription s), (videoColorSpace s);
      repeat split; auto; try lia; try (symmetry; apply app_nil_r).
  - rewrite emitAll_cons.
    destruct (IH (outputCallback cfg c m s)) as [A [B [C [D [Q P]]]]].
    { simpl. rewrite E.
      destruct (metaDescription m), (closureDescription s); reflexivity. }
    rewrite A, B, A, C, D, Q, P. simpl.
    destruct (metaDescription m) as [d|] eqn:MD;
      destruct (closureDescription s) as [d0|] eqn:CD;
      destruct (metaColorSpace m) as [k|] eqn:MC;
      destruct (videoColorSpace s) as [k0|] eqn:VC;
      repeat split; try reflexivity; try lia;
      rewrite <- app_assoc; reflexivity.
Qed.

(** X15: what a sequence of chunks leaves behind.  Starting from an
    exporter that has captured nothing, after the [output] callback has
    run on a sequence of chunks the captured description is the first
    one found in their metadata and the captured colour space the first
    colour space found (later ones never replace them); [chunkCount]
    has grown by the number of chunks, the in-flight counter has gone
    down by it, and one muxing promise per chunk has been appended. *)
Theorem output_callback_captures_first (outs : list (Chunk * option Metadata))
    (s : State) :
  closureDescription s = None -> videoDescription s = None ->
  videoColorSpace s = None ->
  let s' := emitAll cfg outs s in
  videoDescription s' = firstDescription outs /\
  videoColorSpace s' = firstColorSpace outs /\
  chunkCount s' = chunkCount s + List.length outs /\
  encodeQueue s' = (encodeQueue s - Z.of_nat (List.length outs))%Z /\
  muxingPromises s' =
    (muxingPromises s ++ seq (nextPromise s) (List.length outs))%list.
Proof.
  intros C V K s'.
  destruct (emitAll_captures outs s) as [A [B [D [E [Q P]]]]].
  { rewrite C, V. reflexivity. }
  fold s' in A, B, D, E, Q, P. rewrite C in A. rewrite K in D.
  rewrite B, A. auto.
Qed.

(** ** [cleanup()] and [cancel()] *)

(** X16: [cleanup()] and [cancel()] are idempotent, and a [cleanup()]
    after [cancel()] changes nothing: a second call finds nothing left
    to release and closes no encoder. *)
Theorem cleanup_idempotent (s : State) :
  cleanup (cleanup s) = cleanup s /\
  cancel (cancel s) = cancel s /\
  cleanup (cancel s) = cancel s.
Proof. repeat split. Qed.

End RunFacts.

(** ** Concrete runs for the properties above *)

Lemma clean_success_is_complete_witness :
  let s := run sampleConfig (samplePlatform 2) successRun initial in
  encodedFrames (trace s) = [(0%nat, true); (1%nat, false)] /\
  countAdd (trace s) = 2%nat /\
  flushDone (trace s) = true /\
  countFinalize (trace s) = 1%nat.
Proof.
  refine (clean_success_is_complete sampleConfig (samplePlatform 2)
            successRun _ _); vm_compute; reflexivity.
Defined.

Lemma returned_means_released_witness :
  released (run sampleConfig (samplePlatform 3)
                (boot ++ frame ++ [Cancel; Resume Ok; Output 0%nat None])
                initial).
Proof.
  refine (returned_means_released sampleConfig (samplePlatform 3)
            (boot ++ frame ++ [Cancel; Resume Ok; Output 0%nat None])
            (Failure (nullDeref "renderFrame")) _).
  vm_compute. reflexivity.
Defined.

Lemma cancelled_before_finalize_never_succeeds_witness :
  finalizing (pc (run sampleConfig (samplePlatform 2)
                      [Resume Ok; Resume Ok; Resume Ok; Resume Ok]
                      (run sampleConfig (samplePlatform 2)
                           (boot ++ frame ++ frame ++ [Cancel]) initial)))
  = false.
Proof.
  refine (proj1 (cancelled_before_finalize_never_succeeds sampleConfig
                   (samplePlatform 2)
                   (boot ++ frame ++ frame ++ [Cancel])
                   [Resume Ok; Resume Ok; Resume Ok; Resume Ok] _ _));
    vm_compute; reflexivity.
Defined.

Lemma no_encoder_fails_export_witness :
  pc (run sampleConfig noEncoderPlatform [Resume Ok; Resume Ok; Resume Ok]
          initial)
  = Returned (Failure "Failed to initialize video encoder: no software encoder").
Proof.
  refine (proj1 (proj2 (proj2 (proj2
            (no_encoder_fails_export sampleConfig noEncoderPlatform
               "NotSupportedError" "no software encoder" [] _ _)))));
    reflexivity.
Defined.

Lemma output_callback_captures_first_witness :
  let s := emitAll sampleConfig
             [(0%nat, None); (1%nat, Some (encoderMeta (Some rec2020)));
              (2%nat, Some (encoderMeta None))]
             (run sampleConfig (samplePlatform 3) boot initial) in
  videoDescription s = Some [Byte.x01] /\ videoColorSpace s = Some rec2020.
Proof.
  intros s.
  destruct (output_callback_captures_first sampleConfig
              [(0%nat, None); (1%nat, Some (encoderMeta (Some rec2020)));
               (2%nat, Some (encoderMeta None))]
              (run sampleConfig (samplePlatform 3) boot initial)
              eq_refl eq_refl eq_refl) as [A [B _]].
  split; [exact A | exact B].
Defined.

End ExporterFacts.
